(** * The plugin system of [src/lib/plugin-system.ts]

    A shallow embedding of the static validator ([validatePluginCode]),
    the executor ([executePluginCalculation], [executePluginRender]), the
    orchestrator ([processPlugins]) and the merger
    ([mergePluginResults]), with the properties the specification states
    about them. *)

From Stdlib Require Import ZArith NArith Ascii String List Bool Lia.
From Stdlib Require Import DecimalString.
From stdpp Require Import base option list gmap strings.

Local Open Scope string_scope.
Local Open Scope list_scope.
Set Warnings "-register-all".

(** ** JavaScript strings

    A JavaScript string is a sequence of UTF-16 code units; [length],
    [includes] and the regular expressions of the validator all work on
    code units. *)
Module JsString.

Definition jsstring := list N.

(** An ASCII literal as a sequence of code units. *)
Definition lit (s : string) : jsstring :=
  map N_of_ascii (list_ascii_of_string s).

(** [\s] of a JavaScript regular expression: WhiteSpace and
    LineTerminator code units. *)
Definition is_space (u : N) : bool :=
  ((9 <=? u) && (u <=? 13) || (u =? 32) || (u =? 160) || (u =? 5760)
   || (8192 <=? u) && (u <=? 8202) || (u =? 8232) || (u =? 8233)
   || (u =? 8239) || (u =? 8287) || (u =? 12288) || (u =? 65279))%N.

(** Canonicalisation under the [i] flag (without [u]): [toUpperCase] on a
    single code unit, which never sends a unit outside ASCII to an ASCII
    one; on the ASCII letters of the validator's patterns it is the usual
    upper-casing. *)
Definition upper (u : N) : N :=
  if ((97 <=? u) && (u <=? 122))%N then (u - 32)%N else u.

Definition ci_eq (c d : N) : bool := (upper c =? upper d)%N.

Fixpoint starts_with (needle hay : jsstring) : bool :=
  match needle, hay with
  | [], _ => true
  | _ :: _, [] => false
  | c :: needle', d :: hay' => (c =? d)%N && starts_with needle' hay'
  end.

(** [hay.includes(needle)] *)
Fixpoint includes (hay needle : jsstring) : bool :=
  starts_with needle hay ||
  match hay with
  | [] => false
  | _ :: hay' => includes hay' needle
  end.

(** *** The regular expressions of the validator

    Every pattern of [dangerousPatterns] is a sequence of literal
    characters, [\s*] and [\s+]. *)
Inductive Atom :=
| Ch (c : N)   (* a literal character, compared modulo case (flag i) *)
| Ws0          (* \s* *)
| Ws1.         (* \s+ *)

Definition Pattern := list Atom.

Definition chars (s : string) : Pattern := map Ch (lit s).

(** Does the pattern match a prefix of the text? *)
Fixpoint match_here (p : Pattern) : jsstring -> bool :=
  match p with
  | [] => fun _ => true
  | Ch c :: p' => fun s =>
      match s with
      | d :: s' => ci_eq c d && match_here p' s'
      | [] => false
      end
  | Ws0 :: p' =>
      fix star (s : jsstring) : bool :=
        match_here p' s ||
        match s with
        | d :: s' => is_space d && star s'
        | [] => false
        end
  | Ws1 :: p' => fun s =>
      match s with
      | d :: s' =>
          is_space d &&
          (fix star (s : jsstring) : bool :=
             match_here p' s ||
             match s with
             | d :: s' => is_space d && star s'
             | [] => false
             end) s'
      | [] => false
      end
  end.

(** [pattern.test(text)] for a regular expression object created by the
    literal just before the call: [lastIndex] is 0, so the search covers
    every start position. *)
Fixpoint test (p : Pattern) (s : jsstring) : bool :=
  match_here p s ||
  match s with
  | [] => false
  | _ :: s' => test p s'
  end.

(** The words a pattern denotes. *)
Inductive Matches : Pattern -> jsstring -> Prop :=
| M_nil : Matches [] []
| M_ch c d p s :
    ci_eq c d = true -> Matches p s -> Matches (Ch c :: p) (d :: s)
| M_ws0 p ws s :
    forallb is_space ws = true -> Matches p s -> Matches (Ws0 :: p) (ws ++ s)
| M_ws1 p d ws s :
    is_space d = true -> forallb is_space ws = true -> Matches p s ->
    Matches (Ws1 :: p) (d :: ws ++ s).

(** The text has an occurrence of the pattern. *)
Definition occurs (p : Pattern) (s : jsstring) : Prop :=
  exists pre m post, s = pre ++ m ++ post /\ Matches p m.

(** The text has the needle as a substring. *)
Definition substring (needle hay : jsstring) : Prop :=
  exists pre post, hay = pre ++ needle ++ post.

End JsString.

(** ** Static validator *)
Module Validator.
Import JsString.

Record Validation := { valid : bool; errors : list string }.

Definition dangerousPatterns : list (Pattern * string) :=
  [ (chars "eval" ++ [Ws0; Ch 40], "eval() is not allowed");
    (chars "Function" ++ [Ws0; Ch 40], "Function constructor is not allowed");
    (chars "import" ++ [Ws1], "import statements are not allowed");
    (chars "require" ++ [Ws0; Ch 40], "require() is not allowed");
    (chars "process" ++ [Ch 46], "process access is not allowed");
    (chars "global" ++ [Ch 46], "global access is not allowed");
    (chars "fetch" ++ [Ws0; Ch 40], "fetch() is not allowed");
    (chars "XMLHttpRequest", "XMLHttpRequest is not allowed");
    (chars "__dirname", "__dirname is not allowed");
    (chars "__filename", "__filename is not allowed") ].

(** The [for ... of dangerousPatterns] loop, pushing onto [errors]. *)
Fixpoint scan (pats : list (Pattern * string)) (code : jsstring)
    (errors : list string) : list string :=
  match pats with
  | [] => errors
  | (pattern, message) :: pats' =>
      scan pats' code
        (if test pattern code then errors ++ [message] else errors)
  end.

Definition validatePluginCode (code : jsstring) : Validation :=
  let errors := scan dangerousPatterns code [] in
  let errors :=
    if (50000 <? Z.of_nat (length code))%Z
    then errors ++ ["Plugin code exceeds maximum length (50KB)"]
    else errors in
  let errors :=
    if negb (includes code (lit "function calculate"))
       && negb (includes code (lit "function render"))
    then errors ++
         ["Plugin must define at least calculate() or render() function"]
    else errors in
  {| valid := (length errors =? 0)%nat; errors := errors |}.

End Validator.

(** ** JavaScript values, objects with identity, and [Map] *)
Module Js.

(** Heap locations: the identity of a mutable object. *)
Definition loc := nat.

(** The values a plugin can hand to the host.  Numbers are the integers
    among the doubles.  A [Date] is a reference to a mutable heap object.
    A promise is described by its future: it never settles ([after] is
    [None]) or settles [d] milliseconds after it was returned, fulfilled
    with [v] or rejected with [v]. *)
Inductive JsVal :=
| JUndefined
| JNull
| JBool (b : bool)
| JNum (n : Z)
| JStr (s : string)
| JDate (l : loc)
| JArr (xs : list JsVal)
| JObj (fields : list (string * JsVal))
| JPromise (after : option N) (fulfilled : bool) (v : JsVal).

(** ToBoolean *)
Definition truthy (v : JsVal) : bool :=
  match v with
  | JUndefined | JNull => false
  | JBool b => b
  | JNum n => negb (n =? 0)%Z
  | JStr s => negb (String.eqb s "")
  | JDate _ | JArr _ | JObj _ | JPromise _ _ _ => true
  end.

Fixpoint field (key : string) (fields : list (string * JsVal)) : JsVal :=
  match fields with
  | [] => JUndefined
  | (k, v) :: fields' => if String.eqb k key then v else field key fields'
  end.

(** [v.key] for the keys the host reads ([message], [currentDate],
    [data]), none of which is a built-in property of a primitive, an
    array, a date or a promise.  [None]: the read throws a TypeError
    because [v] is [null] or [undefined]. *)
Definition get_field (v : JsVal) (key : string) : option JsVal :=
  match v with
  | JUndefined | JNull => None
  | JObj fields => Some (field key fields)
  | _ => Some JUndefined
  end.

Definition error_object (name message : string) : JsVal :=
  JObj [("name", JStr name); ("message", JStr message)].

(** [new Error(message)] *)
Definition new_Error (message : string) : JsVal :=
  error_object "Error" message.

(** The TypeError of reading a property of [v], which is [null] or
    [undefined]. *)
Definition TypeError_reading (v : JsVal) (key : string) : JsVal :=
  error_object "TypeError"
    ("Cannot read properties of " +:+
     match v with JNull => "null" | _ => "undefined" end +:+
     " (reading '" +:+ key +:+ "')").

(** The mutable objects the host creates for a context: a [Date] with
    its time value, and the [utils] object. *)
Inductive Cell :=
| DateCell (time : Z)
| UtilsCell.

Abbreviation Heap := (gmap loc Cell).

(** [date.getTime()] *)
Definition getTime (h : Heap) (l : loc) : Z :=
  match h !! l with
  | Some (DateCell t) => t
  | _ => 0%Z
  end.

(** A new object: a location the heap does not use yet. *)
Definition new_object (c : Cell) (h : Heap) : loc * Heap :=
  let l := fresh (dom h) in (l, <[l := c]> h).

(** A JavaScript [Map] with string keys: entries in insertion order, one
    per key. *)
Definition JsMap (V : Type) := list (string * V).

Fixpoint map_get {V} (k : string) (m : JsMap V) : option V :=
  match m with
  | [] => None
  | (k', v) :: m' => if String.eqb k' k then Some v else map_get k m'
  end.

(** [m.set(k, v)]: an existing key keeps its place. *)
Fixpoint map_set {V} (k : string) (v : V) (m : JsMap V) : JsMap V :=
  match m with
  | [] => [(k, v)]
  | (k', v') :: m' =>
      if String.eqb k' k then (k, v) :: m' else (k', v') :: map_set k v m'
  end.

Definition keys {V} (m : JsMap V) : list string := map fst m.

End Js.

(** ** Plugin executor *)
Module Executor.
Import JsString Js.

Inductive ViewMode := year | life.

(** [Omit<PluginContext, 'settings'>].  [currentDate] and [utils] are
    references to objects; the other fields are primitives. *)
Record BaseContext := {
  b_currentDate : loc;
  b_birthDate : string;
  b_width : Z;
  b_height : Z;
  b_viewMode : ViewMode;
  b_utils : loc
}.

Record PluginContext := {
  currentDate : loc;
  birthDate : string;
  width : Z;
  height : Z;
  viewMode : ViewMode;
  settings : JsVal;
  utils : loc
}.

(** [{ ...baseContext, settings: s }] *)
Definition spread (baseContext : BaseContext) (s : JsVal) : PluginContext :=
  {| currentDate := b_currentDate baseContext;
     birthDate := b_birthDate baseContext;
     width := b_width baseContext;
     height := b_height baseContext;
     viewMode := b_viewMode baseContext;
     settings := s;
     utils := b_utils baseContext |}.

(** *** What the engine does with a plugin source

    The source text is opaque to the host: [new Function] compiles it and
    the call runs it.  A run is synchronous; it ends after [busy]
    milliseconds with a value or a throw and a new heap, or never ends.
    What a run does is a function of the context and of the heap.  The
    source text is pasted into the body of the function the host builds,
    so it can leave that function by a [return] or a [throw] of its own
    before the host's epilogue, and it can declare its own [Error], which
    the epilogue's [new Error(...)] then uses.  Not modelled: a source
    that patches [Promise], [setTimeout], [console] or the global
    [Error]; what a pending promise does after it was returned (its later writes to the heap, or
    keeping the thread busy so that the timer fires late); assignments to
    the fields of the context object itself; property accessors defined
    by a plugin on the values it returns or throws. *)
Inductive Run :=
| Returns (v : JsVal) (h : Heap) (busy : N)
| Throws (e : JsVal) (h : Heap) (busy : N)
| Hangs.

Definition Hook := PluginContext -> Heap -> Run.

(** [typeof x === 'function'] or not, at the end of the source text. *)
Inductive Binding :=
| NotAFunction
| Callable (f : Hook).

Record Scope := { calculate : Binding; render : Binding }.

(** Running the source text up to the epilogue the host appends: it
    returns or throws before the epilogue, never ends, or reaches the
    epilogue with its declarations in scope.  [BodyEnds]: [Error] is
    still the built-in one there.  [BodyEndsRebound]: the source has
    declared an [Error] of its own, and [construct message] is what
    evaluating [new Error(message)] does in that scope: it returns the
    value the epilogue then throws, or throws itself, or never ends. *)
Inductive BodyRun :=
| BodyReturns (v : JsVal) (h : Heap) (busy : N)
| BodyThrows (e : JsVal) (h : Heap) (busy : N)
| BodyHangs
| BodyEnds (sc : Scope) (h : Heap) (busy : N)
| BodyEndsRebound (sc : Scope) (construct : string -> Heap -> Run)
    (h : Heap) (busy : N).

Inductive Compiled :=
| SyntaxError (message : string)
| Compiles (body : PluginContext -> Heap -> BodyRun).

Definition Engine := jsstring -> Compiled.

(** *** The host side *)

Inductive EntryPoint := Calculate | Render.

(** The heap, the wall clock in milliseconds, and the entry points
    invoked so far, each with the context it was given. *)
Record World := {
  heap : Heap;
  clock : N;
  calls : list (EntryPoint * PluginContext)
}.

Definition after_run (h : Heap) (busy : N) (w : World) : World :=
  {| heap := h; clock := (clock w + busy)%N; calls := calls w |}.

Definition called (ep : EntryPoint) (context : PluginContext) (w : World)
  : World :=
  {| heap := heap w; clock := clock w; calls := calls w ++ [(ep, context)] |}.

Definition later (d : N) (w : World) : World :=
  {| heap := heap w; clock := (clock w + d)%N; calls := calls w |}.

(** [createPluginContext].  The clock gives [new Date()];
    [toLocaleString] with the time zone followed by [new Date(dateStr)]
    is the parameter [zoned], [None] when the time zone is not a valid
    one and [toLocaleString] throws.  The closures of [utils] delegate to
    [./calcs], which is not among the sources; only the identity of the
    [utils] object is kept. *)
Definition createPluginContext (zoned : string -> Z -> option Z)
    (birthDate : string) (width height : Z) (viewMode : ViewMode)
    (settings : JsVal) (timezone : option string) (w : World)
  : PluginContext * World :=
  let now := Z.of_N (clock w) in
  let '(date0, h0) := new_object (DateCell now) (heap w) in
  let '(date, h1) :=
    match timezone with
    | Some tz =>
        if negb (String.eqb tz "")
        then match zoned tz now with
             | Some t => new_object (DateCell t) h0
             | None => (date0, h0)
             end
        else (date0, h0)
    | None => (date0, h0)
    end in
  let '(u, h2) := new_object UtilsCell h1 in
  ({| currentDate := date;
      birthDate := birthDate;
      width := width;
      height := height;
      viewMode := viewMode;
      settings := settings;
      utils := u |},
   {| heap := h2; clock := clock w; calls := calls w |}).

(** An asynchronous computation: it settles with a value, rejects with a
    thrown value, or never comes back. *)
Inductive Step (A : Type) :=
| Settled (a : A) (w : World)
| Rejected (e : JsVal) (w : World)
| Stuck.
Arguments Settled {A} a w.
Arguments Rejected {A} e w.
Arguments Stuck {A}.

Definition Async (A : Type) := World -> Step A.

Definition ret {A} (a : A) : Async A := fun w => Settled a w.

Definition bind {A B} (m : Async A) (k : A -> Async B) : Async B :=
  fun w =>
    match m w with
    | Settled a w' => k a w'
    | Rejected e w' => Rejected e w'
    | Stuck => Stuck
    end.

(** [try { m } catch (error) { handler }] *)
Definition try_catch {A} (m : Async A) (handler : JsVal -> Async A) : Async A :=
  fun w =>
    match m w with
    | Settled a w' => Settled a w'
    | Rejected e w' => handler e w'
    | Stuck => Stuck
    end.

Definition throw {A} (e : JsVal) : Async A := fun w => Rejected e w.

Declare Scope async_scope.
Delimit Scope async_scope with async.
Notation "'let*' x ':=' m 'in' k" := (bind m (fun x => k))
  (at level 10, x name, m at level 200, k at level 200) : async_scope.

Record ExecResult := { result : JsVal; error : JsVal }.

Definition PLUGIN_TIMEOUT_MS : N := 500.

Definition entry (ep : EntryPoint) (sc : Scope) : Binding :=
  match ep with
  | Calculate => calculate sc
  | Render => render sc
  end.

Definition missing_message (ep : EntryPoint) : string :=
  match ep with
  | Calculate => "Plugin must export a calculate() function"
  | Render => "Plugin must export a render() function"
  end.

(** The function [new Function] builds: the source text, then the
    check of the entry point, then its call on the context. *)
Definition pluginFunction (body : PluginContext -> Heap -> BodyRun)
    (ep : EntryPoint) (context : PluginContext) : Async JsVal :=
  fun w =>
    match body context (heap w) with
    | BodyReturns v h busy => Settled v (after_run h busy w)
    | BodyThrows e h busy => Rejected e (after_run h busy w)
    | BodyHangs => Stuck
    | BodyEnds sc h busy =>
        match entry ep sc with
        | NotAFunction =>
            Rejected (new_Error (missing_message ep)) (after_run h busy w)
        | Callable f =>
            let w1 := called ep context (after_run h busy w) in
            match f context h with
            | Returns v h' busy' => Settled v (after_run h' busy' w1)
            | Throws e h' busy' => Rejected e (after_run h' busy' w1)
            | Hangs => Stuck
            end
        end
    | BodyEndsRebound sc construct h busy =>
        match entry ep sc with
        | NotAFunction =>
            match construct (missing_message ep) h with
            | Returns e h' busy' =>
                Rejected e (after_run h' busy' (after_run h busy w))
            | Throws e h' busy' =>
                Rejected e (after_run h' busy' (after_run h busy w))
            | Hangs => Stuck
            end
        | Callable f =>
            let w1 := called ep context (after_run h busy w) in
            match f context h with
            | Returns v h' busy' => Settled v (after_run h' busy' w1)
            | Throws e h' busy' => Rejected e (after_run h' busy' w1)
            | Hangs => Stuck
            end
        end
    end.

(** [await Promise.race([Promise.resolve(v), timer])], the timer being
    created once [v] is there and rejecting [PLUGIN_TIMEOUT_MS] later.  A
    promise that settles at the very moment the timer fires was set up
    before the timer and wins.  The thread is taken to be free while the
    promise is pending, so the timer fires on time. *)
Definition race (v : JsVal) : Async JsVal :=
  fun w =>
    match v with
    | JPromise (Some d) fulfilled v' =>
        if (d <=? PLUGIN_TIMEOUT_MS)%N
        then if fulfilled then Settled v' (later d w)
             else Rejected v' (later d w)
        else Rejected (new_Error "Plugin execution timeout")
               (later PLUGIN_TIMEOUT_MS w)
    | JPromise None _ _ =>
        Rejected (new_Error "Plugin execution timeout")
          (later PLUGIN_TIMEOUT_MS w)
    | _ => Settled v w
    end.

(** The [catch] block of both executors. *)
Definition on_error (e : JsVal) : Async ExecResult :=
  match get_field e "message" with
  | None => throw (TypeError_reading e "message")
  | Some m =>
      ret {| result := JNull;
             error := if truthy m then m else JStr "Plugin execution failed" |}
  end.

Section WithEngine.
Variable engine : Engine.
Local Open Scope async_scope.

Definition new_Function (pluginCode : jsstring) (ep : EntryPoint)
  : Async (PluginContext -> Async JsVal) :=
  match engine pluginCode with
  | SyntaxError m => throw (error_object "SyntaxError" m)
  | Compiles body => ret (pluginFunction body ep)
  end.

Definition execute (ep : EntryPoint) (pluginCode : jsstring)
    (context : PluginContext) : Async ExecResult :=
  try_catch
    (let* pluginFunction := new_Function pluginCode ep in
     let* value := pluginFunction context in
     let* result := race value in
     ret {| result := result; error := JNull |})
    on_error.

Definition executePluginCalculation := execute Calculate.
Definition executePluginRender := execute Render.

End WithEngine.
End Executor.

(** ** Plugin orchestrator *)
Module Orchestrator.
Import JsString Js Executor.

(** [PluginConfig] and [Plugin] are declared in [./types]; these are the
    fields the orchestrator reads.  Of a plugin definition only the
    source text is read. *)
Record PluginConfig := { id : string; enabled : bool; settings : JsVal }.

Record Plugin := { code : jsstring }.

Record Output := {
  calculationResults : JsMap JsVal;
  renderResults : JsMap JsVal;
  errors : JsMap JsVal
}.

Definition no_output : Output :=
  {| calculationResults := []; renderResults := []; errors := [] |}.

(** [errors.set(k, e)] *)
Definition set_error (k : string) (e : JsVal) (out : Output) : Output :=
  {| calculationResults := calculationResults out;
     renderResults := renderResults out;
     errors := map_set k e (errors out) |}.

(** [calculationResults.set(k, r)] *)
Definition set_calculation (k : string) (r : JsVal) (out : Output) : Output :=
  {| calculationResults := map_set k r (calculationResults out);
     renderResults := renderResults out;
     errors := errors out |}.

(** [renderResults.set(k, r)] *)
Definition set_render (k : string) (r : JsVal) (out : Output) : Output :=
  {| calculationResults := calculationResults out;
     renderResults := map_set k r (renderResults out);
     errors := errors out |}.

(** [if (r.error) errors.set(k, r.error) else if (r.result) ok(k, r.result)] *)
Definition collect (ok : string -> JsVal -> Output -> Output)
    (k : string) (r : ExecResult) (out : Output) : Output :=
  if truthy (error r) then set_error k (error r) out
  else if truthy (result r) then ok k (result r) out
  else out.

Section WithEngine.
Variable engine : Engine.
Variable pluginDefinitions : gmap string Plugin.
Variable baseContext : BaseContext.
Local Open Scope async_scope.

(** The plugin-specific context of the loop body.  Both hooks of the
    plugin get this value: the code passes one object to both, and a hook
    that assigns to a field of that object (not modelled) would change
    what the plugin's next hook reads. *)
Definition context_of (pluginConfig : PluginConfig) : PluginContext :=
  spread baseContext (settings pluginConfig).

(** One turn of the [for ... of plugins] loop. *)
Definition iteration (pluginConfig : PluginConfig) (out : Output)
  : Async Output :=
  if negb (enabled pluginConfig) then ret out
  else
    match pluginDefinitions !! id pluginConfig with
    | None =>
        ret (set_error (id pluginConfig)
               (JStr "Plugin definition not found") out)
    | Some pluginDef =>
        let context := context_of pluginConfig in
        let* calcResult :=
          executePluginCalculation engine (code pluginDef) context in
        let out1 := collect set_calculation (id pluginConfig) calcResult out in
        let* renderResult :=
          executePluginRender engine (code pluginDef) context in
        ret (collect set_render (id pluginConfig) renderResult out1)
    end.

Fixpoint loop (plugins : list PluginConfig) (out : Output) : Async Output :=
  match plugins with
  | [] => ret out
  | pluginConfig :: rest =>
      let* out' := iteration pluginConfig out in
      loop rest out'
  end.

Definition processPlugins (plugins : list PluginConfig) : Async Output :=
  loop plugins no_output.

End WithEngine.
End Orchestrator.

(** ** Result merger *)
Module Merger.
Import Js.

(** [pluginData] is a plain object used as a map from plugin ids to
    data; the map here has a key for each own property, which fits every
    id but [__proto__] (assigning to that key sets the prototype). *)
Record Merged := { currentDate : JsVal; pluginData : gmap string JsVal }.

(** The body of the loop over [calculationResults.entries()].  [None]:
    reading a property of a [null] or [undefined] result throws. *)
Definition apply_result (pluginId : string) (result : JsVal) (acc : Merged)
  : option Merged :=
  match get_field result "currentDate", get_field result "data" with
  | Some date, Some data =>
      let acc1 :=
        if truthy date
        then {| currentDate := date; pluginData := pluginData acc |}
        else acc in
      Some (if truthy data
            then {| currentDate := currentDate acc1;
                    pluginData := <[pluginId := data]> (pluginData acc1) |}
            else acc1)
  | _, _ => None
  end.

Fixpoint merge_entries (entries : JsMap JsVal) (acc : Merged)
  : option Merged :=
  match entries with
  | [] => Some acc
  | (pluginId, result) :: rest =>
      match apply_result pluginId result acc with
      | Some acc' => merge_entries rest acc'
      | None => None
      end
  end.

Definition mergePluginResults (baseDate : JsVal)
    (calculationResults : JsMap JsVal) : option Merged :=
  merge_entries calculationResults
    {| currentDate := baseDate; pluginData := ∅ |}.

End Merger.

(** ** Sample plugins

    Plugin sources with what the engine does with them, for concrete
    runs of the executor and the orchestrator. *)
Module Samples.
Import JsString Js Executor Orchestrator.

Fixpoint eqb_js (a b : jsstring) : bool :=
  match a, b with
  | [], [] => true
  | c :: a', d :: b' => (c =? d)%N && eqb_js a' b'
  | _, _ => false
  end.

(** An engine given by the sources it knows. *)
Fixpoint load (table : list (jsstring * Compiled)) (code : jsstring)
  : Compiled :=
  match table with
  | [] => SyntaxError "Unexpected end of input"
  | (source, compiled) :: table' =>
      if eqb_js source code then compiled else load table' code
  end.

(** A source made of function declarations only. *)
Definition declares (sc : Scope) : Compiled :=
  Compiles (fun _ h => BodyEnds sc h 0).

(** A [calculate] that keeps the thread busy for a second. *)
Definition busy_source : jsstring :=
  lit "function calculate(context) { const t0 = Date.now(); while (Date.now() - t0 < 1000) {} return { data: { waited: 1000 } }; }".

Definition busy_calculate : Hook :=
  fun _ h => Returns (JObj [("data", JObj [("waited", JNum 1000)])]) h 1000.

(** A [calculate] that never returns. *)
Definition spin_source : jsstring :=
  lit "function calculate(context) { while (true) {} }".

Definition spin_calculate : Hook := fun _ _ => Hangs.

(** A [calculate] whose promise is fulfilled after two seconds. *)
Definition sleep_source : jsstring :=
  lit "async function calculate(context) { await new Promise(r => setTimeout(r, 2000)); return { data: { slept: 2000 } }; }".

Definition sleep_calculate : Hook :=
  fun _ h =>
    Returns (JPromise (Some 2000%N) true (JObj [("data", JObj [("slept", JNum 2000)])])) h 0.

(** A [calculate] that throws [null]. *)
Definition throw_null_source : jsstring :=
  lit "function calculate(context) { throw null; }".

Definition throw_null_calculate : Hook := fun _ h => Throws JNull h 0.

(** Hooks that return values of the wrong shape. *)
Definition shapeless_source : jsstring :=
  lit "function calculate(context) { return 42; } function render(context) { return 'no elements'; }".

Definition shapeless_calculate : Hook := fun _ h => Returns (JNum 42) h 0.
Definition shapeless_render : Hook := fun _ h => Returns (JStr "no elements") h 0.

(** A [calculate] that resets the date object of its context. *)
Definition setter_source : jsstring :=
  lit "function calculate(context) { context.currentDate.setTime(0); return {}; }".

Definition setter_calculate : Hook :=
  fun context h =>
    Returns (JObj []) (<[currentDate context := DateCell 0]> h) 0.

(** A [calculate] that reports the date it sees. *)
Definition reader_source : jsstring :=
  lit "function calculate(context) { return { data: { seen: context.currentDate.getTime() } }; }".

Definition reader_calculate : Hook :=
  fun context h =>
    Returns
      (JObj [("data",
              JObj [("seen", JNum (getTime h (currentDate context)))])])
      h 0.

(** A source that declares a function, but neither hook. *)
Definition helper_source : jsstring :=
  lit "function calculateAge(context) { return 1; }".

Definition only_calculate (f : Hook) : Compiled :=
  declares {| calculate := Callable f; render := NotAFunction |}.

Definition engine : Engine :=
  load
    [ (busy_source, only_calculate busy_calculate);
      (spin_source, only_calculate spin_calculate);
      (sleep_source, only_calculate sleep_calculate);
      (throw_null_source, only_calculate throw_null_calculate);
      (shapeless_source,
       declares {| calculate := Callable shapeless_calculate;
                   render := Callable shapeless_render |});
      (setter_source, only_calculate setter_calculate);
      (reader_source, only_calculate reader_calculate);
      (helper_source,
       declares {| calculate := NotAFunction; render := NotAFunction |}) ].

(** A request: the date object at location 0 holds time 1000, the
    [utils] object is at location 1. *)
Definition baseContext : BaseContext :=
  {| b_currentDate := 0%nat;
     b_birthDate := "1990-01-15";
     b_width := 1170;
     b_height := 2532;
     b_viewMode := year;
     b_utils := 1%nat |}.

Definition world : World :=
  {| heap := <[ 1%nat := UtilsCell ]> {[ 0%nat := DateCell 1000 ]};
     clock := 0; calls := [] |}.

Definition context : PluginContext := spread baseContext (JObj []).

Definition config (k : string) : PluginConfig :=
  {| id := k; enabled := true; settings := JObj [] |}.

Definition pluginDefinitions : gmap string Plugin :=
  list_to_map
    [ ("busy", {| code := busy_source |});
      ("spin", {| code := spin_source |});
      ("sleep", {| code := sleep_source |});
      ("throw-null", {| code := throw_null_source |});
      ("shapeless", {| code := shapeless_source |});
      ("setter", {| code := setter_source |});
      ("reader", {| code := reader_source |});
      ("helper", {| code := helper_source |}) ].

End Samples.

(** ** Specification-level notions *)
Module Shapes.
Import Js Executor.

(** Modelled from the spec: the declaration of [PluginCalculationResult]
    (in [./types]) is not among the sources; a calculation result is an
    object with an optional overriding date and an optional data bag. *)
Definition calculation_shaped (v : JsVal) : bool :=
  match v with
  | JObj fields =>
      match field "currentDate" fields with
      | JUndefined | JDate _ => true
      | _ => false
      end
  | _ => false
  end.

(** Modelled from the spec: the declaration of [PluginRenderResult] (in
    [./types]) is not among the sources; a render result is a list of
    text elements, objects whose [type] is ["text"]. *)
Definition render_shaped (v : JsVal) : bool :=
  match v with
  | JArr xs =>
      forallb (fun x => match x with
                        | JObj fields =>
                            match field "type" fields with
                            | JStr "text" => true
                            | _ => false
                            end
                        | _ => false
                        end) xs
  | _ => false
  end.



End Shapes.

(** ** The date formatter of the context

    [utils.formatDate] of [createPluginContext], on the three numbers it
    reads from the date ([getFullYear], [getMonth], [getDate]; a valid
    date, so integers). *)
Module Utils.
Import JsString.

(** [String(n)] for an integer [n]. *)
Definition String_of (n : Z) : jsstring :=
  lit (NilZero.string_of_int (Z.to_int n)).

(** [s.padStart(target, fill)] for a filler of one code unit. *)
Definition padStart (target : nat) (fill : N) (s : jsstring) : jsstring :=
  repeat fill (target - length s) ++ s.

(** [s.replace(pattern, replacement)] for a string pattern and a
    replacement without [$]: the first occurrence only. *)
Fixpoint replace (s pattern replacement : jsstring) : jsstring :=
  if starts_with pattern s then replacement ++ skipn (length pattern) s
  else
    match s with
    | [] => []
    | c :: s' => c :: replace s' pattern replacement
    end.

Definition formatDate (fullYear monthIndex dayOfMonth : Z)
    (format : jsstring) : jsstring :=
  let year := fullYear in
  let month := padStart 2 48 (String_of (monthIndex + 1)) in
  let day := padStart 2 48 (String_of dayOfMonth) in
  replace
    (replace (replace format (lit "YYYY") (String_of year))
       (lit "MM") month)
    (lit "DD") day.

End Utils.

(** ** More sample plugins *)
Module MoreSamples.
Import JsString Js Executor Orchestrator.

(** A [calculate] whose promise is fulfilled after 100 ms. *)
Definition nap_source : jsstring :=
  lit "async function calculate(context) { await new Promise(r => setTimeout(r, 100)); return { data: { slept: 100 } }; }".

Definition nap_calculate : Hook :=
  fun _ h =>
    Returns (JPromise (Some 100%N) true
               (JObj [("data", JObj [("slept", JNum 100)])])) h 0.

(** A [render] that throws an error. *)
Definition boom_source : jsstring :=
  lit "function render(context) { throw new Error('boom'); }".

Definition boom_render : Hook := fun _ h => Throws (new_Error "boom") h 0.

(** A [calculate] that throws a string. *)
Definition oops_source : jsstring :=
  lit "function calculate(context) { throw 'oops'; }".

Definition oops_calculate : Hook := fun _ h => Throws (JStr "oops") h 0.

(** Hooks that return nothing. *)
Definition silent_source : jsstring :=
  lit "function calculate(context) { } function render(context) { }".

Definition silent_hook : Hook := fun _ h => Returns JUndefined h 0.

(** A text that is not a function body. *)
Definition broken_source : jsstring :=
  lit "function calculate(context) { return ; ".

Definition engine : Engine :=
  Samples.load
    [ (nap_source,
       Samples.declares {| calculate := Callable nap_calculate;
                           render := NotAFunction |});
      (boom_source,
       Samples.declares {| calculate := NotAFunction;
                           render := Callable boom_render |});
      (oops_source,
       Samples.declares {| calculate := Callable oops_calculate;
                           render := NotAFunction |});
      (silent_source,
       Samples.declares {| calculate := Callable silent_hook;
                           render := Callable silent_hook |});
      (broken_source, SyntaxError "Unexpected token ')'") ].

Definition pluginDefinitions : gmap string Plugin :=
  list_to_map
    [ ("nap", {| code := nap_source |});
      ("boom", {| code := boom_source |});
      ("oops", {| code := oops_source |});
      ("silent", {| code := silent_source |});
      ("broken", {| code := broken_source |}) ].

End MoreSamples.

(** ** Sample plugins that leave the wrapper early or rebind [Error] *)
Module EdgeSamples.
Import JsString Js Executor Orchestrator.


(** What [new Error(m)] gives with
    [function Error(m) { this.message = 'hijacked'; }]. *)
Definition hijacked_Error : string -> Heap -> Run :=
  fun _ h => Returns (JObj [("message", JStr "hijacked")]) h 0.

(** A source with its own [Error] and no hook. *)
Definition hijack_source : jsstring :=
  lit "function Error(m) { this.message = 'hijacked'; }".

(** A source that returns before the epilogue, with no hook. *)
Definition early_return_source : jsstring :=
  lit "return { data: { early: true } };".

Definition ok_calculate : Hook :=
  fun _ h => Returns (JObj [("data", JObj [("ok", JBool true)])]) h 0.

(** A source with a [calculate] and its own [Error]. *)
Definition hijack_calculate_source : jsstring :=
  lit "function calculate(context) { return { data: { ok: true } }; } function Error(m) { this.message = 'hijacked'; }".

(** A source with a [calculate] that calls it itself and returns. *)
Definition early_calculate_source : jsstring :=
  lit "function calculate(context) { return { data: { ok: true } }; } return calculate(context);".


Definition engine : Engine :=
  Samples.load
    [ (hijack_source,
       Compiles (fun _ h =>
         BodyEndsRebound {| calculate := NotAFunction; render := NotAFunction |}
           hijacked_Error h 0));
      (early_return_source,
       Compiles (fun _ h =>
         BodyReturns (JObj [("data", JObj [("early", JBool true)])]) h 0));
      (hijack_calculate_source,
       Compiles (fun _ h =>
         BodyEndsRebound {| calculate := Callable ok_calculate;
                            render := NotAFunction |}
           hijacked_Error h 0));
      (early_calculate_source,
       Compiles (fun context h =>
         match ok_calculate context h with
         | Returns v h' busy => BodyReturns v h' busy
         | Throws e h' busy => BodyThrows e h' busy
         | Hangs => BodyHangs
         end)) ].

Definition pluginDefinitions : gmap string Plugin :=
  list_to_map
    [ ("hijack", {| code := hijack_source |});
      ("early-return", {| code := early_return_source |});
      ("hijack-calculate", {| code := hijack_calculate_source |});
      ("early-calculate", {| code := early_calculate_source |}) ].

End EdgeSamples.

(** * Properties *)

(** ** Strings and patterns *)
Section StringFacts.
Import JsString.

Lemma starts_with_prefix needle hay :
  starts_with needle hay = true <-> exists post, hay = needle ++ post.
Proof.
  revert hay. induction needle as [|c needle IH]; intros hay; simpl.
  - split; [intros _; now exists hay | reflexivity].
  - destruct hay as [|d hay].
    + split; [discriminate | intros [post E]; discriminate].
    + rewrite andb_true_iff, N.eqb_eq, IH. split.
      * intros [-> [post ->]]. now exists post.
      * intros [post E]. injection E as -> ->. split; [reflexivity | now exists post].
Qed.

Lemma includes_substring hay needle :
  includes hay needle = true <-> substring needle hay.
Proof.
  unfold substring. induction hay as [|d hay IH].
  - simpl. rewrite orb_false_r, starts_with_prefix. split.
    + intros [post E]. now exists [], post.
    + intros [pre [post E]]. destruct pre; [now exists post | discriminate].
  - cbn [includes]. rewrite orb_true_iff, starts_with_prefix, IH. split.
    + intros [[post E] | [pre [post E]]].
      * now exists [], post.
      * exists (d :: pre), post. now rewrite E.
    + intros [pre [post E]]. destruct pre as [|e pre].
      * left. now exists post.
      * right. injection E as -> E. now exists pre, post.
Qed.

Lemma match_here_ws0 p s :
  match_here (Ws0 :: p) s =
  match_here p s ||
  match s with
  | d :: s' => is_space d && match_here (Ws0 :: p) s'
  | [] => false
  end.
Proof. destruct s; reflexivity. Qed.

Lemma match_here_ws1 p s :
  match_here (Ws1 :: p) s =
  match s with
  | d :: s' => is_space d && match_here (Ws0 :: p) s'
  | [] => false
  end.
Proof. destruct s; reflexivity. Qed.

Lemma match_here_spaces p ws s :
  forallb is_space ws = true ->
  match_here p s = true -> match_here (Ws0 :: p) (ws ++ s) = true.
Proof.
  intros Hws Hp. induction ws as [|d ws IH].
  - rewrite match_here_ws0. simpl. now rewrite Hp.
  - simpl in Hws. apply andb_true_iff in Hws as [Hd Hws].
    rewrite match_here_ws0. cbn [app]. rewrite Hd, (IH Hws).
    apply orb_true_r.
Qed.

Lemma match_here_complete p m :
  Matches p m -> forall rest, match_here p (m ++ rest) = true.
Proof.
  induction 1 as [|c d p s Hc _ IH|p ws s Hws _ IH|p d ws s Hd Hws _ IH];
    intros rest.
  - reflexivity.
  - cbn. now rewrite Hc, IH.
  - rewrite <- app_assoc. now apply match_here_spaces.
  - cbn [app]. rewrite match_here_ws1, Hd, <- app_assoc. cbn [andb].
    now apply match_here_spaces.
Qed.

Lemma match_here_ws0_sound p :
  (forall s, match_here p s = true ->
     exists m rest, s = m ++ rest /\ Matches p m) ->
  forall s, match_here (Ws0 :: p) s = true ->
    exists ws m rest,
      s = ws ++ m ++ rest /\ forallb is_space ws = true /\ Matches p m.
Proof.
  intros IHp s. induction s as [|d s IH]; rewrite match_here_ws0.
  - rewrite orb_false_r. intros H. destruct (IHp _ H) as (m & rest & E & Hm).
    now exists [], m, rest.
  - intros H. apply orb_true_iff in H as [H | H].
    + destruct (IHp _ H) as (m & rest & E & Hm). now exists [], m, rest.
    + apply andb_true_iff in H as [Hd H].
      destruct (IH H) as (ws & m & rest & E & Hws & Hm).
      exists (d :: ws), m, rest. repeat split; [now rewrite E | | assumption].
      simpl. now rewrite Hd.
Qed.

Lemma match_here_sound p :
  forall s, match_here p s = true ->
    exists m rest, s = m ++ rest /\ Matches p m.
Proof.
  induction p as [|a p IH]; intros s H.
  - exists [], s. split; [reflexivity | constructor].
  - destruct a as [c| |].
    + destruct s as [|d s]; [discriminate |]. cbn in H.
      apply andb_true_iff in H as [Hc H].
      destruct (IH _ H) as (m & rest & -> & Hm).
      exists (d :: m), rest. split; [reflexivity | now constructor].
    + destruct (match_here_ws0_sound p IH s H) as (ws & m & rest & -> & Hws & Hm).
      exists (ws ++ m), rest. rewrite <- app_assoc.
      split; [reflexivity | now constructor].
    + rewrite match_here_ws1 in H. destruct s as [|d s]; [discriminate |].
      apply andb_true_iff in H as [Hd H].
      destruct (match_here_ws0_sound p IH s H) as (ws & m & rest & -> & Hws & Hm).
      exists (d :: ws ++ m), rest. cbn [app]. rewrite <- app_assoc.
      split; [reflexivity | now constructor].
Qed.

Lemma test_occurs p s : test p s = true <-> occurs p s.
Proof.
  unfold occurs. induction s as [|d s IH].
  - simpl. rewrite orb_false_r. split.
    + intros H. destruct (match_here_sound _ _ H) as (m & rest & E & Hm).
      now exists [], m, rest.
    + intros (pre & m & post & E & Hm).
      destruct pre; [| discriminate]. destruct m; [| discriminate].
      now apply (match_here_complete _ _ Hm []).
  - cbn [test]. rewrite orb_true_iff, IH. split.
    + intros [H | (pre & m & post & E & Hm)].
      * destruct (match_here_sound _ _ H) as (m & rest & E & Hm).
        now exists [], m, rest.
      * exists (d :: pre), m, post. now rewrite E.
    + intros (pre & m & post & E & Hm). destruct pre as [|e pre].
      * left. simpl in E. rewrite E. now apply match_here_complete.
      * right. injection E as -> E. now exists pre, m, post.
Qed.

End StringFacts.

(** ** Static validator *)
Section ValidatorFacts.
Import JsString Validator.

Lemma scan_keeps pats code errs m :
  In m errs -> In m (scan pats code errs).
Proof.
  revert errs. induction pats as [|[p msg] pats IH]; intros errs H; simpl.
  - assumption.
  - apply IH. destruct (test p code); [apply in_or_app; now left | assumption].
Qed.

Lemma scan_finds pats code errs p m :
  In (p, m) pats -> test p code = true -> In m (scan pats code errs).
Proof.
  revert errs. induction pats as [|[q msg] pats IH]; intros errs Hin Ht.
  - destruct Hin.
  - simpl. destruct Hin as [E | Hin].
    + injection E as -> ->. rewrite Ht. apply scan_keeps.
      apply in_or_app. right. now left.
    + now apply IH.
Qed.

Lemma scan_only pats code errs m :
  In m (scan pats code errs) ->
  In m errs \/ exists p, In (p, m) pats /\ test p code = true.
Proof.
  revert errs. induction pats as [|[q msg] pats IH]; intros errs H; simpl in H.
  - now left.
  - destruct (IH _ H) as [Hin | (p & Hp & Ht)].
    + destruct (test q code) eqn:Hq; [| now left].
      apply in_app_or in Hin as [Hin | [<- | []]]; [now left |].
      right. exists q. split; [now left | assumption].
    + right. exists p. split; [now right | assumption].
Qed.

Lemma errors_of_scan code m :
  In m (scan dangerousPatterns code []) ->
  In m (errors (validatePluginCode code)).
Proof.
  intros H. unfold validatePluginCode. cbn [errors].
  repeat match goal with
         | |- In _ (if ?b then _ else _) => destruct b
         | |- In _ (_ ++ _) => apply in_or_app; left
         end; assumption.
Qed.

Lemma invalid_of_error code m :
  In m (errors (validatePluginCode code)) ->
  valid (validatePluginCode code) = false.
Proof.
  unfold validatePluginCode. cbn [errors valid].
  match goal with |- In _ ?l -> _ => destruct l end; [intros [] | reflexivity].
Qed.

Lemma missing_entry_message code :
  includes code (lit "function calculate") = false ->
  includes code (lit "function render") = false ->
  In "Plugin must define at least calculate() or render() function"
    (errors (validatePluginCode code)).
Proof.
  intros Hc Hr. unfold validatePluginCode. cbn [errors].
  rewrite Hc, Hr. cbn [negb andb]. apply in_or_app. right. now left.
Qed.



(** C8, as the code has it.  A source text that contains neither
    [function calculate] nor [function render] is invalid, with the
    missing-entry-point message; the test is on the text, not on what the
    text declares. *)
Theorem undeclared_text_rejected code :
  ~ substring (lit "function calculate") code ->
  ~ substring (lit "function render") code ->
  valid (validatePluginCode code) = false /\
  In "Plugin must define at least calculate() or render() function"
    (errors (validatePluginCode code)).
Proof.
  intros Hc Hr.
  assert (In "Plugin must define at least calculate() or render() function"
            (errors (validatePluginCode code))) as H.
  { apply missing_entry_message.
    - destruct (includes code (lit "function calculate")) eqn:E; [| reflexivity].
      now apply includes_substring in E.
    - destruct (includes code (lit "function render")) eqn:E; [| reflexivity].
      now apply includes_substring in E. }
  split; [now apply invalid_of_error in H | assumption].
Qed.

Lemma undeclared_text_rejected_witness :
  valid (validatePluginCode (lit "const answer = 42;")) = false /\
  In "Plugin must define at least calculate() or render() function"
    (errors (validatePluginCode (lit "const answer = 42;"))).
Proof.
  apply undeclared_text_rejected;
    intros H; apply includes_substring in H; vm_compute in H; discriminate.
Defined.

Lemma scan_nil pats code :
  scan pats code [] = [] <->
  forall p m, In (p, m) pats -> test p code = false.
Proof.
  split.
  - intros E p m Hin. destruct (test p code) eqn:T; [| reflexivity].
    pose proof (scan_finds pats code [] p m Hin T) as H.
    rewrite E in H. destruct H.
  - intros H. destruct (scan pats code []) as [|m l] eqn:E; [reflexivity |].
    destruct (scan_only pats code [] m) as [[] | (p & Hp & T)].
    + rewrite E. now left.
    + now rewrite (H _ _ Hp) in T.
Qed.

(** The sources the validator accepts: no occurrence of a denylisted
    pattern, at most 50000 code units, and one of the two texts
    [function calculate], [function render]. *)
Lemma valid_characterised code :
  valid (validatePluginCode code) = true <->
  (forall p m, In (p, m) dangerousPatterns -> ~ occurs p code) /\
  (Z.of_nat (length code) <= 50000)%Z /\
  (substring (lit "function calculate") code \/
   substring (lit "function render") code).
Proof.
  unfold validatePluginCode. cbn [valid].
  rewrite <- !includes_substring.
  destruct (50000 <? Z.of_nat (length code))%Z eqn:L;
    [apply Z.ltb_lt in L | apply Z.ltb_ge in L];
    destruct (includes code (lit "function calculate")) eqn:C;
    destruct (includes code (lit "function render")) eqn:R;
    cbn [negb andb];
    rewrite ?length_app, ?Nat.add_1_r, ?Nat.eqb_eq;
    try (split; [discriminate | intros (_ & ? & ?); (lia || intuition discriminate)]).
  all: rewrite length_zero_iff_nil, scan_nil; split.
  all: try (intros H; split; [| split; [assumption | auto]];
            intros p m Hin Hocc; apply test_occurs in Hocc;
            now rewrite (H _ _ Hin) in Hocc).
  all: intros (H & _ & _) p m Hin; destruct (test p code) eqn:T;
    [apply test_occurs in T; exfalso; exact (H _ _ Hin T) | reflexivity].
Qed.

End ValidatorFacts.

(** ** Context builder *)
Section ContextFacts.
Import Js Executor.
Variable zoned : string -> Z -> option Z.

Lemma new_object_fresh c h l h' :
  new_object c h = (l, h') ->
  h !! l = None /\ h' = <[l := c]> h.
Proof.
  unfold new_object. intros [= <- <-]. split; [| reflexivity].
  apply not_elem_of_dom, is_fresh.
Qed.

(** The date object and the [utils] object of a context built by
    [createPluginContext] are new, distinct objects, and the objects
    that were there are left as they were. *)
Lemma createPluginContext_fresh
    birthDate width height viewMode settings timezone w context w' :
  createPluginContext zoned birthDate width height viewMode settings
    timezone w = (context, w') ->
  heap w !! currentDate context = None /\
  heap w !! utils context = None /\
  currentDate context <> utils context /\
  is_Some (heap w' !! currentDate context) /\
  is_Some (heap w' !! utils context) /\
  (forall l, is_Some (heap w !! l) -> heap w' !! l = heap w !! l).
Proof.
  unfold createPluginContext.
  destruct (new_object (DateCell (Z.of_N (clock w))) (heap w))
    as [date0 h0] eqn:E0.
  apply new_object_fresh in E0 as [F0 ->].
  set (h0 := <[date0 := DateCell (Z.of_N (clock w))]> (heap w)).
  assert (exists date h1,
            (match timezone with
             | Some tz =>
                 if negb (String.eqb tz "")
                 then match zoned tz (Z.of_N (clock w)) with
                      | Some t => new_object (DateCell t) h0
                      | None => (date0, h0)
                      end
                 else (date0, h0)
             | None => (date0, h0)
             end) = (date, h1) /\
            heap w !! date = None /\ is_Some (h1 !! date) /\
            (forall l, is_Some (heap w !! l) -> h1 !! l = heap w !! l))
    as (date & h1 & -> & Fd & Sd & Kd).
  { assert (forall l, is_Some (heap w !! l) -> h0 !! l = heap w !! l) as K0.
    { intros l [x Hx]. unfold h0. rewrite lookup_insert_ne; [reflexivity |].
      intros <-. congruence. }
    assert (is_Some (h0 !! date0)) as S0.
    { unfold h0. rewrite lookup_insert_eq. eauto. }
    destruct timezone as [tz|]; [| now exists date0, h0].
    destruct (negb (String.eqb tz "")); [| now exists date0, h0].
    destruct (zoned tz (Z.of_N (clock w))) as [t|]; [| now exists date0, h0].
    destruct (new_object (DateCell t) h0) as [date1 h1] eqn:E1.
    apply new_object_fresh in E1 as [F1 ->].
    exists date1, (<[date1 := DateCell t]> h0). split; [reflexivity |].
    split; [| split].
    - destruct (heap w !! date1) eqn:Hw; [| reflexivity].
      rewrite K0 in F1 by eauto. congruence.
    - rewrite lookup_insert_eq. eauto.
    - intros l Hl. rewrite lookup_insert_ne; [now apply K0 |].
      intros <-. rewrite K0 in F1 by assumption. destruct Hl. congruence. }
  destruct (new_object UtilsCell h1) as [u h2] eqn:E2.
  apply new_object_fresh in E2 as [F2 ->].
  intros [= <- <-]. cbn.
  assert (date <> u) as Hne.
  { intros ->. destruct Sd. congruence. }
  repeat split.
  - assumption.
  - destruct (heap w !! u) eqn:Hw; [| reflexivity].
    rewrite Kd in F2 by eauto. congruence.
  - assumption.
  - now rewrite lookup_insert_ne by congruence.
  - rewrite lookup_insert_eq. eauto.
  - intros l Hl. rewrite lookup_insert_ne; [now apply Kd |].
    intros <-. rewrite Kd in F2 by assumption. destruct Hl. congruence.
Qed.

End ContextFacts.

(** ** Plugin executor *)
Section ExecutorFacts.
Import JsString Js Executor.
Variable engine : Engine.

(** The executor unfolded on a source that compiles. *)
Lemma execute_compiled ep code context w body :
  engine code = Compiles body ->
  execute engine ep code context w =
  match pluginFunction body ep context w with
  | Settled v w1 =>
      match race v w1 with
      | Settled r w2 => Settled {| result := r; error := JNull |} w2
      | Rejected e w2 => on_error e w2
      | Stuck => Stuck
      end
  | Rejected e w1 => on_error e w1
  | Stuck => Stuck
  end.
Proof.
  intros E. unfold execute, try_catch, bind, new_Function. rewrite E.
  unfold ret. destruct (pluginFunction body ep context w) as [v w1|e w1|];
    try reflexivity.
  destruct (race v w1); reflexivity.
Qed.

Lemma execute_syntax_error ep code context w m :
  engine code = SyntaxError m ->
  execute engine ep code context w =
  Settled {| result := JNull;
             error := if truthy (JStr m) then JStr m
                      else JStr "Plugin execution failed" |} w.
Proof.
  intros E. unfold execute, try_catch, bind, new_Function. now rewrite E.
Qed.

(** What the [catch] block makes of a thrown value. *)
Lemma on_error_cases e w :
  (exists m, get_field e "message" = Some m /\
     on_error e w =
     Settled {| result := JNull;
                error := if truthy m then m
                         else JStr "Plugin execution failed" |} w) \/
  ((e = JNull \/ e = JUndefined) /\
   on_error e w = Rejected (TypeError_reading e "message") w).
Proof.
  unfold on_error. destruct e; cbn [get_field];
    try (left; eexists; split; reflexivity);
    right; (split; [auto | reflexivity]).
Qed.

Lemma on_error_failure e w r w' :
  on_error e w = Settled r w' ->
  result r = JNull /\ truthy (error r) = true /\ w' = w.
Proof.
  destruct (on_error_cases e w) as [(m & _ & ->) | [_ ->]]; [| discriminate].
  intros [= <- <-]. cbn. repeat split. now destruct (truthy m) eqn:E.
Qed.

(** Every way an executor can come back: a success carrying the value,
    or a failure carrying a message. *)
Lemma execute_settled ep code context w r w' :
  execute engine ep code context w = Settled r w' ->
  error r = JNull \/ (result r = JNull /\ truthy (error r) = true).
Proof.
  destruct (engine code) as [m | body] eqn:E.
  - rewrite (execute_syntax_error _ _ _ _ _ E). intros [= <- _]. right.
    cbn [result error]. split; [reflexivity |].
    destruct (negb _) eqn:T; [exact T | reflexivity].
  - rewrite (execute_compiled _ _ _ _ _ E).
    destruct (pluginFunction body ep context w) as [v w1|e w1|];
      [ destruct (race v w1) as [x w2|e w2|] | | ]; try discriminate.
    + intros [= <- _]. now left.
    + intros H. right. now apply on_error_failure in H as (? & ? & _).
    + intros H. right. now apply on_error_failure in H as (? & ? & _).
Qed.

(** A promise still pending when the timer fires loses the race, and the
    executor comes back [PLUGIN_TIMEOUT_MS] after the hook returned it. *)
Lemma pending_promise_times_out ep code context w body after fulfilled v w1 :
  engine code = Compiles body ->
  pluginFunction body ep context w = Settled (JPromise after fulfilled v) w1 ->
  match after with Some d => (PLUGIN_TIMEOUT_MS < d)%N | None => True end ->
  execute engine ep code context w =
  Settled {| result := JNull; error := JStr "Plugin execution timeout" |}
    (later PLUGIN_TIMEOUT_MS w1).
Proof.
  intros E Hf Hd. rewrite (execute_compiled _ _ _ _ _ E), Hf.
  destruct after as [d|]; cbn [race]; [| reflexivity].
  apply N.leb_gt in Hd. now rewrite Hd.
Qed.

Lemma execute_missing_entry ep code context w body sc h busy :
  engine code = Compiles body ->
  body context (heap w) = BodyEnds sc h busy ->
  entry ep sc = NotAFunction ->
  execute engine ep code context w =
  Settled {| result := JNull; error := JStr (missing_message ep) |}
    (after_run h busy w).
Proof.
  intros E Hb Hm. rewrite (execute_compiled _ _ _ _ _ E).
  unfold pluginFunction. rewrite Hb, Hm. now destruct ep.
Qed.

(** A value thrown by plugin code, other than [null] and [undefined], is
    reported as a failure with its [message], or with the default
    message when it has none. *)
Lemma thrown_value_reported ep code context w body e w1 m :
  engine code = Compiles body ->
  pluginFunction body ep context w = Rejected e w1 ->
  get_field e "message" = Some m ->
  execute engine ep code context w =
  Settled {| result := JNull;
             error := if truthy m then m else JStr "Plugin execution failed" |}
    w1.
Proof.
  intros E Hf Hm. rewrite (execute_compiled _ _ _ _ _ E), Hf.
  unfold on_error. now rewrite Hm.
Qed.


(** C3, as the code has it.  When the wrapper function returns [v] and
    the race against the timer is won with [r] ([v] itself unless [v] is
    a promise), the executor reports [r] as the result with no error,
    whatever the shape of [r]. *)
Theorem returned_value_passed_through ep code context w body v w1 r w2 :
  engine code = Compiles body ->
  pluginFunction body ep context w = Settled v w1 ->
  race v w1 = Settled r w2 ->
  execute engine ep code context w =
  Settled {| result := r; error := JNull |} w2.
Proof.
  intros E Hf Hr. now rewrite (execute_compiled _ _ _ _ _ E), Hf, Hr.
Qed.

(** The calls an executor adds to the trace: at most one, of its own
    entry point on the context it was given. *)
Lemma pluginFunction_calls body ep context w :
  match pluginFunction body ep context w with
  | Settled _ w' | Rejected _ w' =>
      calls w' = calls w \/ calls w' = calls w ++ [(ep, context)]
  | Stuck => True
  end.
Proof.
  unfold pluginFunction. destruct (body context (heap w)); cbn; auto.
  - destruct (entry ep sc) as [|f]; cbn; auto.
    destruct (f context h); cbn; auto.
  - destruct (entry ep sc) as [|f]; cbn.
    + destruct (construct _ h); cbn; auto.
    + destruct (f context h); cbn; auto.
Qed.

Lemma race_calls v w :
  match race v w with
  | Settled _ w' | Rejected _ w' => calls w' = calls w
  | Stuck => True
  end.
Proof.
  destruct v; cbn; auto. destruct after as [d|]; cbn; auto.
  destruct (d <=? PLUGIN_TIMEOUT_MS)%N, fulfilled; cbn; auto.
Qed.

Lemma execute_calls ep code context w r w' :
  execute engine ep code context w = Settled r w' ->
  calls w' = calls w \/ calls w' = calls w ++ [(ep, context)].
Proof.
  destruct (engine code) as [m | body] eqn:E.
  - rewrite (execute_syntax_error _ _ _ _ _ E). intros [= _ <-]. now left.
  - rewrite (execute_compiled _ _ _ _ _ E).
    pose proof (pluginFunction_calls body ep context w) as Hf.
    destruct (pluginFunction body ep context w) as [v w1|e w1|];
      try discriminate.
    + pose proof (race_calls v w1) as Hr.
      destruct (race v w1) as [x w2|e w2|]; try discriminate.
      * intros [= _ <-]. now rewrite Hr.
      * intros H. apply on_error_failure in H as (_ & _ & ->). now rewrite Hr.
    + intros H. now apply on_error_failure in H as (_ & _ & ->).
Qed.

End ExecutorFacts.

(** ** The executor on the sample plugins *)
Section SampleRuns.
Import JsString Js Executor Samples.


Lemma returned_value_passed_through_witness :
  execute engine Render shapeless_source context world =
  Settled {| result := JStr "no elements"; error := JNull |}
    (called Render context world).
Proof.
  apply (returned_value_passed_through engine Render shapeless_source context
           world (fun _ h => BodyEnds
                    {| calculate := Callable shapeless_calculate;
                       render := Callable shapeless_render |} h 0)
           (JStr "no elements") (called Render context world)).
  - vm_compute. reflexivity.
  - vm_compute. reflexivity.
  - reflexivity.
Defined.

(** C1 at a plugin that keeps the thread busy past the deadline: the
    timer is only created once the hook has returned, so the executor
    comes back after the full second with the hook's value as a success,
    not at 500 ms with the timeout failure. *)
Theorem busy_plugin_outlasts_deadline :
  executePluginCalculation engine busy_source context world =
  Settled {| result := JObj [("data", JObj [("waited", JNum 1000)])];
             error := JNull |}
    {| heap := heap world; clock := 1000; calls := [(Calculate, context)] |}.
Proof. vm_compute. reflexivity. Qed.

(** A hook that never returns: the executor never comes back. *)
Lemma spinning_plugin_never_returns :
  executePluginCalculation engine spin_source context world = Stuck.
Proof. vm_compute. reflexivity. Qed.

(** A hook that sleeps past the deadline does time out. *)
Lemma sleeping_plugin_times_out :
  executePluginCalculation engine sleep_source context world =
  Settled {| result := JNull; error := JStr "Plugin execution timeout" |}
    {| heap := heap world; clock := 500; calls := [(Calculate, context)] |}.
Proof. vm_compute. reflexivity. Qed.

(** C3 does not hold: a number from [calculate] and a string from
    [render], neither of the expected shape, are reported as successes. *)
Lemma shapeless_values_reported_as_success :
  Shapes.calculation_shaped (JNum 42) = false /\
  Shapes.render_shaped (JStr "no elements") = false /\
  executePluginCalculation engine shapeless_source context world =
  Settled {| result := JNum 42; error := JNull |}
    (called Calculate context world) /\
  executePluginRender engine shapeless_source context world =
  Settled {| result := JStr "no elements"; error := JNull |}
    (called Render context world).
Proof. repeat split; vm_compute; reflexivity. Qed.

(** C8 does not hold: a source that declares neither hook, but contains
    the text [function calculate], passes the validator; both executors
    then report the missing entry point. *)
Lemma undeclared_hook_passes_validation :
  engine helper_source =
  declares {| calculate := NotAFunction; render := NotAFunction |} /\
  Validator.validatePluginCode helper_source =
  {| Validator.valid := true; Validator.errors := [] |}.
Proof. split; vm_compute; reflexivity. Qed.

(** The sample sources used against the executor are sources the
    validator lets through. *)
Lemma samples_pass_validation :
  forallb (fun code => Validator.valid (Validator.validatePluginCode code))
    [busy_source; spin_source; sleep_source; throw_null_source;
     shapeless_source; setter_source; reader_source; helper_source] = true.
Proof. vm_compute. reflexivity. Qed.

End SampleRuns.

(** ** JavaScript maps *)
Section MapFacts.
Import Js.
Context {V : Type}.
Implicit Types (m : JsMap V) (k : string) (v : V).

Lemma map_get_set_eq k v m : map_get k (map_set k v m) = Some v.
Proof.
  induction m as [|[k' v'] m IH]; simpl.
  - now rewrite String.eqb_refl.
  - destruct (String.eqb k' k) eqn:E; simpl.
    + now rewrite String.eqb_refl.
    + now rewrite E.
Qed.

Lemma map_get_set_ne k k' v m :
  k <> k' -> map_get k' (map_set k v m) = map_get k' m.
Proof.
  intros Hne. induction m as [|[k1 v1] m IH]; simpl.
  - apply String.eqb_neq in Hne. now rewrite Hne.
  - destruct (String.eqb k1 k) eqn:E; simpl.
    + apply String.eqb_eq in E as ->. apply String.eqb_neq in Hne.
      now rewrite Hne.
    + now rewrite IH.
Qed.

Lemma map_set_set k v v' m : map_set k v (map_set k v' m) = map_set k v m.
Proof.
  induction m as [|[k1 v1] m IH]; simpl.
  - now rewrite String.eqb_refl.
  - destruct (String.eqb k1 k) eqn:E; simpl.
    + now rewrite String.eqb_refl.
    + now rewrite E, IH.
Qed.


Lemma keys_map_set k v m :
  keys (map_set k v m) =
  match map_get k m with
  | Some _ => keys m
  | None => keys m ++ [k]
  end.
Proof.
  unfold keys. induction m as [|[k1 v1] m IH]; simpl.
  - reflexivity.
  - destruct (String.eqb_spec k1 k) as [-> | Hne]; simpl.
    + reflexivity.
    + rewrite IH. now destruct (map_get k m).
Qed.

Lemma map_get_None_keys k m : map_get k m = None -> ~ In k (keys m).
Proof.
  unfold keys. induction m as [|[k1 v1] m IH]; simpl.
  - intros _ [].
  - destruct (String.eqb_spec k1 k) as [-> | Hne]; [discriminate |].
    intros H [E | Hin]; [now apply Hne | now apply IH].
Qed.

(** One entry per key. *)
Lemma map_set_NoDup k v m : List.NoDup (keys m) -> List.NoDup (keys (map_set k v m)).
Proof.
  intros H. rewrite keys_map_set. destruct (map_get k m) eqn:E.
  - assumption.
  - apply map_get_None_keys in E. apply NoDup_ListNoDup.
    apply NoDup_ListNoDup in H. apply NoDup_app. repeat split.
    + assumption.
    + intros x Hx Hx'. apply list_elem_of_In in Hx.
      apply list_elem_of_In in Hx' as [<- | []]. now apply E.
    + apply NoDup_singleton.
Qed.

End MapFacts.

(** ** Plugin orchestrator *)
Section OrchestratorFacts.
Import JsString Js Executor Orchestrator Shapes.
Variable engine : Engine.
Variable pluginDefinitions : gmap string Plugin.
Variable baseContext : BaseContext.

Local Abbreviation iteration := (iteration engine pluginDefinitions baseContext).
Local Abbreviation loop := (loop engine pluginDefinitions baseContext).
Local Abbreviation processPlugins := (processPlugins engine pluginDefinitions baseContext).
Local Abbreviation context_of := (context_of baseContext).

Lemma errors_collect_calculation k r out :
  errors (collect set_calculation k r out) =
  if truthy (error r) then map_set k (error r) (errors out) else errors out.
Proof. unfold collect. now destruct (truthy (error r)), (truthy (result r)). Qed.

Lemma errors_collect_render k r out :
  errors (collect set_render k r out) =
  if truthy (error r) then map_set k (error r) (errors out) else errors out.
Proof. unfold collect. now destruct (truthy (error r)), (truthy (result r)). Qed.

(** The loop body on an enabled plugin with a definition. *)
Lemma iteration_enabled pluginConfig pluginDef out w :
  enabled pluginConfig = true ->
  pluginDefinitions !! id pluginConfig = Some pluginDef ->
  iteration pluginConfig out w =
  match executePluginCalculation engine (code pluginDef)
          (context_of pluginConfig) w with
  | Settled calcResult w1 =>
      match executePluginRender engine (code pluginDef)
              (context_of pluginConfig) w1 with
      | Settled renderResult w2 =>
          Settled
            (collect set_render (id pluginConfig) renderResult
               (collect set_calculation (id pluginConfig) calcResult out))
            w2
      | Rejected e w2 => Rejected e w2
      | Stuck => Stuck
      end
  | Rejected e w1 => Rejected e w1
  | Stuck => Stuck
  end.
Proof.
  intros He Hd. unfold Orchestrator.iteration. rewrite He, Hd. cbn [negb].
  unfold bind, ret. reflexivity.
Qed.


Lemma loop_cons c post out w :
  loop (c :: post) out w =
  match iteration c out w with
  | Settled out' w' => loop post out' w'
  | Rejected e w' => Rejected e w'
  | Stuck => Stuck
  end.
Proof. reflexivity. Qed.






(** The batch comes back with its three maps as soon as every executor
    run in it comes back. *)
Lemma loop_settles plugins :
  (forall c pluginDef,
     In c plugins -> enabled c = true ->
     pluginDefinitions !! id c = Some pluginDef ->
     forall ep w, exists r w',
       execute engine ep (code pluginDef) (context_of c) w = Settled r w') ->
  forall out w, exists final w', loop plugins out w = Settled final w'.
Proof.
  induction plugins as [|c plugins IH]; intros Hall out w.
  - now exists out, w.
  - assert (exists out1 w1, iteration c out w = Settled out1 w1)
      as (out1 & w1 & E1).
    { unfold Orchestrator.iteration. destruct (enabled c) eqn:He; cbn [negb];
        [| now eexists _, _].
      destruct (pluginDefinitions !! id c) as [def|] eqn:Hd;
        [| now eexists _, _].
      unfold bind, ret, executePluginCalculation, executePluginRender.
      destruct (Hall c def (or_introl eq_refl) He Hd Calculate w)
        as (rc & wc & ->).
      destruct (Hall c def (or_introl eq_refl) He Hd Render wc)
        as (rr & wr & ->).
      now eexists _, _. }
    rewrite loop_cons, E1. apply IH.
    intros c' def' Hin. apply Hall. now right.
Qed.

(** One entry per plugin id in [errors]. *)
Lemma loop_errors_NoDup plugins out w final w' :
  loop plugins out w = Settled final w' ->
  List.NoDup (keys (errors out)) -> List.NoDup (keys (errors final)).
Proof.
  revert out w. induction plugins as [|c plugins IH]; intros out w.
  - now intros [= <- _].
  - rewrite loop_cons. destruct (iteration c out w) as [out1 w1| |] eqn:E;
      try discriminate.
    intros H Hn. apply (IH _ _ H). revert E.
    unfold Orchestrator.iteration. destruct (enabled c); cbn [negb].
    2:{ now intros [= <- _]. }
    destruct (pluginDefinitions !! id c) as [def|].
    2:{ intros [= <- _]. cbn. now apply map_set_NoDup. }
    unfold bind, ret.
    destruct (executePluginCalculation _ _ _ _) as [rc wc| |]; try discriminate.
    destruct (executePluginRender _ _ _ _) as [rr wr| |]; try discriminate.
    intros [= <- _].
    rewrite errors_collect_render, errors_collect_calculation.
    destruct (truthy (error rr)), (truthy (error rc));
      repeat apply map_set_NoDup; assumption.
Qed.




Lemma collect_success ok k r out :
  error r = JNull -> truthy (result r) = true ->
  collect ok k r out = ok k (result r) out.
Proof. intros E T. unfold collect. now rewrite E, T. Qed.


(** The calls one turn of the loop adds: all on the context built from
    [baseContext] and the plugin's settings. *)
Lemma iteration_calls c out w out' w' :
  iteration c out w = Settled out' w' ->
  exists invoked,
    calls w' = calls w ++ invoked /\
    Forall (fun call => enabled c = true /\ snd call = context_of c) invoked.
Proof.
  unfold Orchestrator.iteration. destruct (enabled c) eqn:He; cbn [negb].
  2:{ intros [= _ <-]. exists []. now rewrite app_nil_r. }
  destruct (pluginDefinitions !! id c) as [def|].
  2:{ intros [= _ <-]. exists []. now rewrite app_nil_r. }
  unfold bind, ret.
  destruct (executePluginCalculation _ _ _ _) as [rc w1| |] eqn:Hc;
    try discriminate.
  destruct (executePluginRender _ _ _ _) as [rr w2| |] eqn:Hr;
    try discriminate.
  intros [= _ <-].
  apply execute_calls in Hc, Hr.
  destruct Hc as [Ec | Ec], Hr as [Er | Er]; rewrite Er, Ec;
    rewrite <- ?app_assoc;
    eexists; (split; [try reflexivity; symmetry; apply app_nil_r |]);
    repeat constructor.
Qed.

Lemma loop_calls plugins out w final w' :
  loop plugins out w = Settled final w' ->
  exists invoked,
    calls w' = calls w ++ invoked /\
    Forall (fun call => exists c,
              In c plugins /\ enabled c = true /\ snd call = context_of c)
      invoked.
Proof.
  revert out w. induction plugins as [|c plugins IH]; intros out w.
  - intros [= _ <-]. exists []. now rewrite app_nil_r.
  - rewrite loop_cons. destruct (iteration c out w) as [out1 w1| |] eqn:E;
      try discriminate.
    intros H. destruct (iteration_calls _ _ _ _ _ E) as (l1 & E1 & H1).
    destruct (IH _ _ H) as (l2 & E2 & H2).
    exists (l1 ++ l2). rewrite E2, E1, app_assoc. split; [reflexivity |].
    apply Forall_app. split.
    + eapply Forall_impl; [exact H1 |]. intros call [? ?].
      exists c. repeat split; [now left | assumption | assumption].
    + eapply Forall_impl; [exact H2 |]. intros call (c' & ? & ? & ?).
      exists c'. repeat split; [now right | assumption | assumption].
Qed.

End OrchestratorFacts.

(** ** Result merger *)
Section MergerFacts.
Import Js Merger.

Lemma merge_entries_app a b acc :
  merge_entries (a ++ b) acc =
  match merge_entries a acc with
  | Some acc' => merge_entries b acc'
  | None => None
  end.
Proof.
  revert acc. induction a as [|[k r] a IH]; intros acc; simpl.
  - reflexivity.
  - destruct (apply_result k r acc); [apply IH | reflexivity].
Qed.

(** A result that is not [null] or [undefined] can be read at any key. *)
Lemma get_field_total r k d k' :
  get_field r k = Some d -> exists x, get_field r k' = Some x.
Proof. destruct r; cbn; try discriminate; eauto. Qed.

(** A result without an overriding date leaves the date alone, and
    touches no data bag but its own. *)
Lemma apply_result_no_date k r d acc :
  get_field r "currentDate" = Some d -> truthy d = false ->
  exists acc',
    apply_result k r acc = Some acc' /\
    currentDate acc' = currentDate acc /\
    forall k', k' <> k -> pluginData acc' !! k' = pluginData acc !! k'.
Proof.
  intros Hd Td. destruct (get_field_total _ _ _ "data" Hd) as [b Hb].
  unfold apply_result. rewrite Hd, Hb, Td.
  destruct (truthy b); eexists; (split; [reflexivity |]); cbn;
    (split; [reflexivity |]); intros k' Hne; [| reflexivity].
  now apply lookup_insert_ne.
Qed.

Lemma merge_entries_no_date entries acc :
  Forall (fun entry => exists d,
            get_field (snd entry) "currentDate" = Some d /\ truthy d = false)
    entries ->
  exists acc',
    merge_entries entries acc = Some acc' /\
    currentDate acc' = currentDate acc /\
    forall k, ~ In k (keys entries) ->
              pluginData acc' !! k = pluginData acc !! k.
Proof.
  intros H. revert acc.
  induction H as [|[k r] entries (d & Hd & Td) _ IH]; intros acc.
  - exists acc. now repeat split.
  - destruct (apply_result_no_date k r d acc Hd Td) as (acc1 & E1 & D1 & P1).
    destruct (IH acc1) as (acc2 & E2 & D2 & P2).
    exists acc2. cbn [merge_entries]. rewrite E1. split; [exact E2 |].
    split; [congruence |]. intros k' Hk'. cbn in Hk'.
    rewrite P2, P1; [reflexivity | |]; intuition congruence.
Qed.

(** A result with a date and a data bag sets both. *)
Lemma apply_result_date_and_data k r l bag acc :
  get_field r "currentDate" = Some (JDate l) ->
  get_field r "data" = Some (JObj bag) ->
  apply_result k r acc =
  Some {| currentDate := JDate l;
          pluginData := <[k := JObj bag]> (pluginData acc) |}.
Proof. intros Hd Hb. unfold apply_result. now rewrite Hd, Hb. Qed.

(** C5.  The merge starts from [baseDate] (results without a date leave
    it as it is) and the last result in processing order that has a date
    decides: with the results of A, then of plugins that return no date,
    then of C, where A and C carry different dates and a data bag each,
    the date is C's, and A's and C's bags are under their own ids. *)
Theorem last_date_override_wins
    baseDate idA resultA dateA bagA others idC resultC dateC bagC :
  get_field resultA "currentDate" = Some (JDate dateA) ->
  get_field resultA "data" = Some (JObj bagA) ->
  get_field resultC "currentDate" = Some (JDate dateC) ->
  get_field resultC "data" = Some (JObj bagC) ->
  dateA <> dateC ->
  Forall (fun entry => exists d,
            get_field (snd entry) "currentDate" = Some d /\ truthy d = false)
    others ->
  List.NoDup (idA :: keys others ++ [idC]) ->
  (exists merged0,
     mergePluginResults baseDate others = Some merged0 /\
     currentDate merged0 = baseDate) /\
  exists merged,
    mergePluginResults baseDate ((idA, resultA) :: others ++ [(idC, resultC)])
      = Some merged /\
    currentDate merged = JDate dateC /\
    currentDate merged <> JDate dateA /\
    pluginData merged !! idA = Some (JObj bagA) /\
    pluginData merged !! idC = Some (JObj bagC).
Proof.
  intros HdA HbA HdC HbC Hne Hothers Hnodup.
  apply NoDup_cons_iff in Hnodup as [HA _].
  assert (idA <> idC) as HAC.
  { intros ->. apply HA, in_or_app. right. now left. }
  assert (~ In idA (keys others)) as HAo.
  { intros Hin. apply HA, in_or_app. now left. }
  split.
  - destruct (merge_entries_no_date others
                {| currentDate := baseDate; pluginData := ∅ |} Hothers)
      as (m0 & E0 & D0 & _).
    now exists m0.
  - unfold mergePluginResults. cbn [merge_entries].
    rewrite (apply_result_date_and_data _ _ _ _ _ HdA HbA).
    cbn [pluginData]. rewrite merge_entries_app.
    destruct (merge_entries_no_date others
                {| currentDate := JDate dateA;
                   pluginData := <[idA := JObj bagA]> ∅ |} Hothers)
      as (m1 & E1 & D1 & P1).
    rewrite E1. cbn [merge_entries].
    rewrite (apply_result_date_and_data _ _ _ _ _ HdC HbC).
    eexists. split; [reflexivity |]. cbn [currentDate pluginData].
    repeat split.
    + congruence.
    + rewrite lookup_insert_ne by congruence. rewrite (P1 _ HAo). cbn.
      apply lookup_insert_eq.
    + apply lookup_insert_eq.
Qed.

Lemma last_date_override_wins_witness :
  exists merged,
    mergePluginResults (JDate 0%nat)
      [ ("timezone", JObj [("currentDate", JDate 1%nat);
                           ("data", JObj [("zone", JStr "UTC")])]);
        ("quotes", JObj [("data", JObj [("quote", JNum 7)])]);
        ("travel", JObj [("currentDate", JDate 2%nat);
                         ("data", JObj [("zone", JStr "JST")])]) ]
      = Some merged /\
    currentDate merged = JDate 2%nat /\
    currentDate merged <> JDate 1%nat /\
    pluginData merged !! "timezone" = Some (JObj [("zone", JStr "UTC")]) /\
    pluginData merged !! "travel" = Some (JObj [("zone", JStr "JST")]).
Proof.
  apply (last_date_override_wins (JDate 0%nat)
           "timezone" _ 1%nat [("zone", JStr "UTC")]
           [("quotes", JObj [("data", JObj [("quote", JNum 7)])])]
           "travel" _ 2%nat [("zone", JStr "JST")]).
  - reflexivity.
  - reflexivity.
  - reflexivity.
  - reflexivity.
  - discriminate.
  - constructor; [| constructor]. exists JUndefined. split; reflexivity.
  - cbn. repeat constructor; cbn; intuition discriminate.
Defined.

End MergerFacts.

(** ** The orchestrator on the sample plugins *)
Section BatchRuns.
Import JsString Js Executor Orchestrator Samples.

Local Abbreviation run := (processPlugins engine pluginDefinitions baseContext).

(** C6 at a plugin that throws [null]: the [catch] block reads
    [error.message] of [null], which throws a TypeError, so the executor
    rejects instead of resolving with a failure, and so does the whole
    batch, whose other plugin is never run. *)
Theorem thrown_null_escapes :
  executePluginCalculation engine throw_null_source context world =
  Rejected (TypeError_reading JNull "message")
    (called Calculate context world) /\
  run [config "throw-null"; config "reader"] world =
  Rejected (TypeError_reading JNull "message")
    (called Calculate context world).
Proof. split; vm_compute; reflexivity. Qed.




End BatchRuns.

(** * Further properties of the code *)

(** ** The date formatter *)
Section FormatFacts.
Import JsString Utils.

Lemma starts_with_app p post : starts_with p (p ++ post) = true.
Proof. apply starts_with_prefix. now exists post. Qed.

Lemma skipn_length_app (p post : jsstring) : skipn (length p) (p ++ post) = post.
Proof. induction p as [|c p IH]; [reflexivity | exact IH]. Qed.

(** The pattern is replaced where it first starts: at the first
    occurrence of its first code unit, when the pattern is there. *)
Lemma replace_first c p pre post r :
  Forall (fun d => d <> c) pre ->
  replace (pre ++ (c :: p) ++ post) (c :: p) r = pre ++ r ++ post.
Proof.
  intros H. induction H as [|d pre Hd _ IH].
  - cbn [app replace].
    replace (starts_with (c :: p) (c :: p ++ post)) with true
      by (symmetry; apply (starts_with_app (c :: p) post)).
    cbn [length skipn]. now rewrite skipn_length_app.
  - cbn [app replace starts_with].
    apply N.eqb_neq in Hd. rewrite N.eqb_sym in Hd. rewrite Hd. cbn [andb].
    f_equal. exact IH.
Qed.

Lemma replace_absent s pattern r :
  includes s pattern = false -> replace s pattern r = s.
Proof.
  induction s as [|c s IH]; cbn [includes replace]; intros H;
    apply orb_false_iff in H as [H1 H2]; rewrite H1; [reflexivity |].
  f_equal. now apply IH.
Qed.

Lemma string_of_uint_digits u :
  Forall (fun d => (48 <= d <= 57)%N) (lit (NilEmpty.string_of_uint u)).
Proof.
  induction u; cbn; constructor; try assumption; cbn; lia.
Qed.

(** [String(n)] is made of digits, after a minus sign when [n] is
    negative. *)
Lemma String_of_digits n :
  Forall (fun d => d = 45%N \/ (48 <= d <= 57)%N) (String_of n).
Proof.
  assert (forall u, Forall (fun d => d = 45%N \/ (48 <= d <= 57)%N)
                      (lit (NilZero.string_of_uint u))) as Hu.
  { intros u. eapply Forall_impl; [| intros d Hd; right; exact Hd].
    destruct u; try apply string_of_uint_digits.
    cbn. repeat constructor; cbn; lia. }
  unfold String_of. destruct (Z.to_int n) as [u | u]; cbn [NilZero.string_of_int].
  - apply Hu.
  - change (lit (String "-" (NilZero.string_of_uint u)))
      with (45%N :: lit (NilZero.string_of_uint u)).
    constructor; [now left | apply Hu].
Qed.

(** A number from 0 to 99, padded to two code units. *)
Lemma padStart_two_digits n :
  (0 <= n <= 99)%Z ->
  padStart 2 48 (String_of n) =
  [Z.to_N (48 + n / 10); Z.to_N (48 + n mod 10)].
Proof.
  intros Hn.
  assert (Forall (fun k : nat =>
            padStart 2 48 (String_of (Z.of_nat k)) =
            [Z.to_N (48 + Z.of_nat k / 10); Z.to_N (48 + Z.of_nat k mod 10)])
            (seq 0 100)) as Hall.
  { apply (bool_decide_unpack _). vm_compute. reflexivity. }
  rewrite Forall_forall in Hall.
  specialize (Hall (Z.to_nat n)). rewrite Z2Nat.id in Hall by lia.
  apply Hall. apply elem_of_seq. lia.
Qed.

Lemma digits_differ_from c l :
  (57 < c)%N ->
  Forall (fun d => d = 45%N \/ (48 <= d <= 57)%N) l ->
  Forall (fun d => d <> c) l.
Proof.
  intros Hc H. eapply Forall_impl; [exact H |]. cbn. intros d Hd. lia.
Qed.

Lemma padStart_digits n :
  Forall (fun d => d = 45%N \/ (48 <= d <= 57)%N) (padStart 2 48 (String_of n)).
Proof.
  unfold padStart. apply Forall_app. split; [| apply String_of_digits].
  apply Forall_forall. intros d Hd. apply list_elem_of_In, repeat_spec in Hd.
  lia.
Qed.

(** X1.  On a format where [YYYY], [MM] and [DD] come in this order,
    with no [Y], [M] or [D] before them, [formatDate] puts the year in
    decimal, and the month (from 1) and the day on two digits each,
    padded with a zero, in their places.  What follows [DD] is kept as
    it is, further tokens included: only the first occurrence of each
    is replaced. *)
Theorem formatDate_year_month_day fullYear monthIndex dayOfMonth a b c e :
  Forall (fun u => u <> 89%N /\ u <> 77%N /\ u <> 68%N) a ->
  Forall (fun u => u <> 77%N /\ u <> 68%N) b ->
  Forall (fun u => u <> 68%N) c ->
  (0 <= monthIndex <= 11)%Z ->
  (1 <= dayOfMonth <= 31)%Z ->
  formatDate fullYear monthIndex dayOfMonth
    (a ++ lit "YYYY" ++ b ++ lit "MM" ++ c ++ lit "DD" ++ e) =
  a ++ String_of fullYear ++ b ++
  [Z.to_N (48 + (monthIndex + 1) / 10); Z.to_N (48 + (monthIndex + 1) mod 10)] ++
  c ++
  [Z.to_N (48 + dayOfMonth / 10); Z.to_N (48 + dayOfMonth mod 10)] ++ e.
Proof.
  intros Ha Hb Hc Hm Hd. unfold formatDate.
  pose proof (String_of_digits fullYear) as HY.
  pose proof (padStart_digits (monthIndex + 1)) as HM.
  rewrite <- (padStart_two_digits (monthIndex + 1)) by lia.
  rewrite <- (padStart_two_digits dayOfMonth) by lia.
  remember (String_of fullYear) as Y eqn:EY. clear EY.
  remember (padStart 2 48 (String_of (monthIndex + 1))) as MM eqn:EM. clear EM.
  remember (padStart 2 48 (String_of dayOfMonth)) as DD eqn:ED. clear ED.
  change (lit "YYYY") with (89 :: [89; 89; 89])%N.
  change (lit "MM") with (77 :: [77])%N.
  change (lit "DD") with (68 :: [68])%N.
  rewrite (replace_first 89 [89; 89; 89]%N a).
  2:{ eapply Forall_impl; [exact Ha |]. cbn. tauto. }
  replace (a ++ Y ++ b ++ (77 :: [77])%N ++ c ++ (68 :: [68])%N ++ e)
    with ((a ++ Y ++ b) ++ (77 :: [77])%N ++ c ++ (68 :: [68])%N ++ e)
    by (now rewrite <- !app_assoc).
  rewrite (replace_first 77 [77]%N (a ++ Y ++ b)).
  2:{ repeat (apply Forall_app; split).
      - eapply Forall_impl; [exact Ha |]. cbn. tauto.
      - apply digits_differ_from; [reflexivity | exact HY].
      - eapply Forall_impl; [exact Hb |]. cbn. tauto. }
  replace ((a ++ Y ++ b) ++ MM ++ c ++ (68 :: [68])%N ++ e)
    with ((a ++ Y ++ b ++ MM ++ c) ++ (68 :: [68])%N ++ e)
    by (now rewrite <- !app_assoc).
  rewrite (replace_first 68 [68]%N (a ++ Y ++ b ++ MM ++ c)).
  2:{ repeat (apply Forall_app; split).
      - eapply Forall_impl; [exact Ha |]. cbn. tauto.
      - apply digits_differ_from; [reflexivity | exact HY].
      - eapply Forall_impl; [exact Hb |]. cbn. tauto.
      - apply digits_differ_from; [reflexivity | exact HM].
      - exact Hc. }
  now rewrite <- !app_assoc.
Qed.

Lemma formatDate_year_month_day_witness :
  formatDate 2024 0 5 (lit "Today: YYYY-MM-DD (was YYYY)") =
  lit "Today: 2024-01-05 (was YYYY)".
Proof.
  apply (formatDate_year_month_day 2024 0 5
           (lit "Today: ") (lit "-") (lit "-") (lit " (was YYYY)")).
  - repeat constructor; discriminate.
  - repeat constructor; discriminate.
  - repeat constructor; discriminate.
  - lia.
  - lia.
Defined.

(** X2.  A format in which none of [YYYY], [MM] and [DD] occurs is
    returned as it is. *)
Theorem formatDate_without_tokens fullYear monthIndex dayOfMonth format :
  ~ substring (lit "YYYY") format ->
  ~ substring (lit "MM") format ->
  ~ substring (lit "DD") format ->
  formatDate fullYear monthIndex dayOfMonth format = format.
Proof.
  intros HY HM HD. unfold formatDate.
  assert (forall needle, ~ substring needle format ->
                         includes format needle = false) as Habs.
  { intros needle H. destruct (includes format needle) eqn:E; [| reflexivity].
    now apply includes_substring in E. }
  now rewrite !replace_absent by (repeat rewrite replace_absent; auto).
Qed.

Lemma formatDate_without_tokens_witness :
  formatDate 2024 0 5 (lit "yyyy-mm-dd") = lit "yyyy-mm-dd".
Proof.
  apply formatDate_without_tokens;
    intros H; apply includes_substring in H; vm_compute in H; discriminate.
Defined.

End FormatFacts.

(** ** The validator's error list *)
Section ValidatorReports.
Import JsString Validator.

(** The messages the validator can report, in the order it reports
    them. *)
Lemma scan_appends pats code errs :
  exists l, scan pats code errs = errs ++ l /\ sublist l (map snd pats).
Proof.
  revert errs. induction pats as [|[p m] pats IH]; intros errs; cbn [scan map snd].
  - exists []. now rewrite app_nil_r.
  - destruct (IH (if test p code then errs ++ [m] else errs)) as (l & -> & Hl).
    destruct (test p code).
    + exists (m :: l). rewrite <- app_assoc. split; [reflexivity |].
      now apply sublist_skip.
    + exists l. split; [reflexivity |]. now apply sublist_cons.
Qed.

Lemma table_messages_distinct :
  List.NoDup (map snd dangerousPatterns ++
         ["Plugin code exceeds maximum length (50KB)";
          "Plugin must define at least calculate() or render() function"]).
Proof. apply NoDup_ListNoDup. apply (bool_decide_unpack _). vm_compute. reflexivity. Qed.

Lemma table_pattern_of_message p q m :
  In (p, m) dangerousPatterns -> In (q, m) dangerousPatterns -> p = q.
Proof.
  pose proof table_messages_distinct as Hn.
  apply NoDup_app_remove_r in Hn. revert Hn.
  induction dangerousPatterns as [|[a b] l IH]; cbn [map snd In];
    intros Hn Hp Hq; [destruct Hp |].
  apply NoDup_cons_iff in Hn as [Hb Hn].
  destruct Hp as [Hp | Hp], Hq as [Hq | Hq].
  - congruence.
  - injection Hp as -> ->. destruct Hb. now apply (in_map snd l (q, m)).
  - injection Hq as -> ->. destruct Hb. now apply (in_map snd l (p, m)).
  - now apply IH.
Qed.

Lemma table_message_not_other p m :
  In (p, m) dangerousPatterns ->
  m <> "Plugin code exceeds maximum length (50KB)" /\
  m <> "Plugin must define at least calculate() or render() function".
Proof.
  assert (Forall (fun x =>
            snd x <> "Plugin code exceeds maximum length (50KB)" /\
            snd x <> "Plugin must define at least calculate() or render() function")
            dangerousPatterns) as H.
  { apply (bool_decide_unpack _). vm_compute. reflexivity. }
  intros Hp. rewrite Forall_forall in H. apply list_elem_of_In in Hp.
  apply (H _ Hp).
Qed.

(** A pattern's message is in the error list only when the pattern
    occurs. *)
Lemma message_needs_occurrence code p m :
  In (p, m) dangerousPatterns ->
  In m (errors (validatePluginCode code)) ->
  occurs p code.
Proof.
  intros Hp Hin. destruct (table_message_not_other _ _ Hp) as [N1 N2].
  assert (In m (scan dangerousPatterns code [])) as Hs.
  { revert Hin. unfold validatePluginCode. cbn [errors].
    destruct (50000 <? Z.of_nat (length code))%Z,
      (negb (includes code (lit "function calculate"))
       && negb (includes code (lit "function render")));
      rewrite ?in_app_iff; cbn [In]; intuition congruence. }
  destruct (scan_only _ _ _ _ Hs) as [[] | (q & Hq & T)].
  rewrite (table_pattern_of_message _ _ _ Hp Hq). now apply test_occurs.
Qed.

(** X3.  [validatePluginCode] accepts exactly the sources with no
    occurrence of a denylisted pattern, at most 50000 code units, and one
    of the texts [function calculate] and [function render]. *)
Theorem validator_accepts_exactly code :
  valid (validatePluginCode code) = true <->
  (forall p m, In (p, m) dangerousPatterns -> ~ occurs p code) /\
  (Z.of_nat (length code) <= 50000)%Z /\
  (substring (lit "function calculate") code \/
   substring (lit "function render") code).
Proof. apply valid_characterised. Qed.

(** X4.  The validator reports a pattern's message only for a source in
    which the pattern occurs: no denylist message without a match. *)
Theorem denylist_message_only_on_match code pattern message :
  In (pattern, message) dangerousPatterns ->
  In message (errors (validatePluginCode code)) ->
  occurs pattern code.
Proof. apply message_needs_occurrence. Qed.

Lemma denylist_message_only_on_match_witness :
  occurs (chars "fetch" ++ [Ws0; Ch 40])
    (lit "function render(c) { return Fetch ('/x'); }").
Proof.
  apply (denylist_message_only_on_match _ _ "fetch() is not allowed").
  - cbn. tauto.
  - vm_compute. tauto.
Defined.

(** X5.  The length error is reported exactly for sources of more than
    50000 code units: a source of 50000 code units is not too long. *)
Theorem length_error_above_50000 code :
  In "Plugin code exceeds maximum length (50KB)"
    (errors (validatePluginCode code)) <->
  (50000 < Z.of_nat (length code))%Z.
Proof.
  unfold validatePluginCode. cbn [errors].
  assert (~ In "Plugin code exceeds maximum length (50KB)"
            (scan dangerousPatterns code [])) as Hs.
  { intros H. destruct (scan_only _ _ _ _ H) as [[] | (q & Hq & _)].
    now apply table_message_not_other in Hq as [? _]. }
  destruct (50000 <? Z.of_nat (length code))%Z eqn:L;
    [apply Z.ltb_lt in L | apply Z.ltb_ge in L];
    destruct (negb (includes code (lit "function calculate"))
              && negb (includes code (lit "function render")));
    rewrite ?in_app_iff; cbn [In]; split; intros H;
    try lia; try tauto; try (exfalso; intuition congruence).
Qed.

(** X6.  The error list follows a fixed order, the messages of
    [dangerousPatterns] in the order of the table, then the length
    message, then the missing-entry-point message, and no message comes
    twice. *)
Theorem errors_in_table_order code :
  sublist (errors (validatePluginCode code))
    (map snd dangerousPatterns ++
     ["Plugin code exceeds maximum length (50KB)";
      "Plugin must define at least calculate() or render() function"]) /\
  List.NoDup (errors (validatePluginCode code)).
Proof.
  assert (sublist (errors (validatePluginCode code))
            (map snd dangerousPatterns ++
             ["Plugin code exceeds maximum length (50KB)";
              "Plugin must define at least calculate() or render() function"]))
    as Hsub.
  { unfold validatePluginCode. cbn [errors].
    destruct (scan_appends dangerousPatterns code []) as (l & -> & Hl).
    cbn [app].
    destruct (50000 <? Z.of_nat (length code))%Z,
      (negb (includes code (lit "function calculate"))
       && negb (includes code (lit "function render")));
      rewrite <- ?app_assoc.
    - apply sublist_app; [exact Hl | reflexivity].
    - apply sublist_app; [exact Hl |].
      apply sublist_skip, sublist_cons, sublist_nil.
    - apply sublist_app; [exact Hl |].
      apply sublist_cons, sublist_skip, sublist_nil.
    - now apply sublist_inserts_r. }
  split; [exact Hsub |].
  apply NoDup_ListNoDup. eapply sublist_NoDup; [| exact Hsub].
  apply NoDup_ListNoDup, table_messages_distinct.
Qed.

(** X7.  Text put around a source cannot hide a match: a denylist
    message reported for a source is reported for every text that
    contains the source, be it inside a comment or a string. *)
Theorem denylist_message_survives_wrapping code pre post pattern message :
  In (pattern, message) dangerousPatterns ->
  In message (errors (validatePluginCode code)) ->
  In message (errors (validatePluginCode (pre ++ code ++ post))).
Proof.
  intros Hp Hin.
  destruct (message_needs_occurrence _ _ _ Hp Hin) as (a & m & b & -> & Hm).
  apply errors_of_scan, scan_finds with pattern; [exact Hp |].
  apply test_occurs. exists (pre ++ a), m, (b ++ post).
  split; [now rewrite <- !app_assoc | exact Hm].
Qed.

Lemma denylist_message_survives_wrapping_witness :
  In "require() is not allowed"
    (errors (validatePluginCode
               (lit "/* " ++ lit "require('fs')" ++ lit " */ function render() {}"))).
Proof.
  apply (denylist_message_survives_wrapping _ _ _
           (chars "require" ++ [Ws0; Ch 40])).
  - cbn. tauto.
  - vm_compute. tauto.
Defined.

End ValidatorReports.

(** ** The context builder *)
Section ContextBuilder.
Import Js Executor.
Variable zoned : string -> Z -> option Z.

Lemma getTime_new_date t c (h : Heap) :
  getTime (<[fresh (dom (<[fresh (dom h) := DateCell t]> h)) := c]>
             (<[fresh (dom h) := DateCell t]> h))
    (fresh (dom h)) = t.
Proof.
  unfold getTime. rewrite lookup_insert_ne.
  - now rewrite lookup_insert_eq.
  - intros E.
    pose proof (is_fresh (dom (<[fresh (dom h) := DateCell t]> h))) as F.
    rewrite E in F. apply F. apply elem_of_dom. rewrite lookup_insert_eq. eauto.
Qed.

(** X8.  The context [createPluginContext] returns carries the
    arguments as they were given, and its date holds the current time:
    converted by the time zone when one is given and valid, not
    converted when the time zone is missing, empty or not valid.  The
    clock and the call trace are left alone. *)
Theorem createPluginContext_fields
    birthDate width height viewMode settings timezone w context w' :
  createPluginContext zoned birthDate width height viewMode settings
    timezone w = (context, w') ->
  getTime (heap w') (Executor.currentDate context) =
    match timezone with
    | Some tz =>
        if String.eqb tz "" then Z.of_N (clock w)
        else match zoned tz (Z.of_N (clock w)) with
             | Some t => t
             | None => Z.of_N (clock w)
             end
    | None => Z.of_N (clock w)
    end /\
  Executor.birthDate context = birthDate /\
  Executor.width context = width /\
  Executor.height context = height /\
  Executor.viewMode context = viewMode /\
  Executor.settings context = settings /\
  clock w' = clock w /\ calls w' = calls w.
Proof.
  unfold createPluginContext, new_object.
  destruct timezone as [tz|]; [destruct (String.eqb tz ""); cbn [negb];
    [| destruct (zoned tz (Z.of_N (clock w))) as [t|]] |];
    intros [= <- <-]; cbn; repeat split; apply getTime_new_date.
Qed.

End ContextBuilder.

Lemma createPluginContext_fields_witness :
  Js.getTime
    (Executor.heap
       (snd (Executor.createPluginContext (fun _ _ => None) "1990-01-15"
               1170 2532 Executor.year (Js.JObj []) (Some "Mars/Olympus")
               {| Executor.heap := ∅; Executor.clock := 1700;
                  Executor.calls := [] |})))
    (Executor.currentDate
       (fst (Executor.createPluginContext (fun _ _ => None) "1990-01-15"
               1170 2532 Executor.year (Js.JObj []) (Some "Mars/Olympus")
               {| Executor.heap := ∅; Executor.clock := 1700;
                  Executor.calls := [] |}))) = 1700%Z.
Proof.
  destruct (createPluginContext_fields (fun _ _ => None) "1990-01-15" 1170
              2532 Executor.year (Js.JObj []) (Some "Mars/Olympus")
              {| Executor.heap := ∅; Executor.clock := 1700;
                 Executor.calls := [] |} _ _ (surjective_pairing _))
    as [H _].
  exact H.
Defined.

Section ContextBuilderCalls.
Import Js Executor.
Variable zoned : string -> Z -> option Z.

(** X9.  Two calls of [createPluginContext] give contexts that share
    no object: the date and the [utils] object of the second are new,
    and the second call leaves the first context's date as it was. *)
Theorem createPluginContext_calls_share_nothing
    birthDate1 width1 height1 viewMode1 settings1 timezone1
    birthDate2 width2 height2 viewMode2 settings2 timezone2
    w context1 w1 context2 w2 :
  createPluginContext zoned birthDate1 width1 height1 viewMode1 settings1
    timezone1 w = (context1, w1) ->
  createPluginContext zoned birthDate2 width2 height2 viewMode2 settings2
    timezone2 w1 = (context2, w2) ->
  currentDate context1 <> currentDate context2 /\
  currentDate context1 <> utils context2 /\
  utils context1 <> currentDate context2 /\
  utils context1 <> utils context2 /\
  getTime (heap w2) (currentDate context1) =
  getTime (heap w1) (currentDate context1).
Proof.
  intros H1 H2.
  apply createPluginContext_fresh in H1 as (_ & _ & _ & Sd1 & Su1 & _).
  apply createPluginContext_fresh in H2 as (Fd2 & Fu2 & _ & _ & _ & K2).
  repeat split.
  - intros E. rewrite E in Sd1. destruct Sd1. congruence.
  - intros E. rewrite E in Sd1. destruct Sd1. congruence.
  - intros E. rewrite E in Su1. destruct Su1. congruence.
  - intros E. rewrite E in Su1. destruct Su1. congruence.
  - unfold getTime. now rewrite (K2 _ Sd1).
Qed.

End ContextBuilderCalls.

Lemma createPluginContext_calls_share_nothing_witness :
  Executor.currentDate (fst (Executor.createPluginContext (fun _ t => Some (t - 60)%Z) "1990-01-15"
       1170 2532 Executor.year (Js.JObj []) (Some "Europe/Paris")
       {| Executor.heap := ∅; Executor.clock := 1700; Executor.calls := [] |})) <>
  Executor.currentDate (fst (Executor.createPluginContext (fun _ t => Some (t - 60)%Z) "1990-01-15"
       1170 2532 Executor.life (Js.JObj []) None
       (snd (Executor.createPluginContext (fun _ t => Some (t - 60)%Z) "1990-01-15"
       1170 2532 Executor.year (Js.JObj []) (Some "Europe/Paris")
       {| Executor.heap := ∅; Executor.clock := 1700; Executor.calls := [] |})))) /\
  Executor.utils (fst (Executor.createPluginContext (fun _ t => Some (t - 60)%Z) "1990-01-15"
       1170 2532 Executor.year (Js.JObj []) (Some "Europe/Paris")
       {| Executor.heap := ∅; Executor.clock := 1700; Executor.calls := [] |})) <>
  Executor.utils (fst (Executor.createPluginContext (fun _ t => Some (t - 60)%Z) "1990-01-15"
       1170 2532 Executor.life (Js.JObj []) None
       (snd (Executor.createPluginContext (fun _ t => Some (t - 60)%Z) "1990-01-15"
       1170 2532 Executor.year (Js.JObj []) (Some "Europe/Paris")
       {| Executor.heap := ∅; Executor.clock := 1700; Executor.calls := [] |})))).
Proof.
  destruct (createPluginContext_calls_share_nothing
              (fun _ t => Some (t - 60)%Z)
              "1990-01-15" 1170 2532 Executor.year (Js.JObj [])
              (Some "Europe/Paris")
              "1990-01-15" 1170 2532 Executor.life (Js.JObj []) None
              {| Executor.heap := ∅; Executor.clock := 1700; Executor.calls := [] |} _ _ _ _
              (surjective_pairing _) (surjective_pairing _))
    as (H1 & _ & _ & H2 & _).
  split; assumption.
Defined.

(** ** Outcomes of an executor *)
Section ExecutorOutcomes.
Import JsString Js Executor.
Variable engine : Engine.

(** X10.  An executor that comes back does so with a success, the
    error being [null], or with a failure, the result being [null] and
    the error a truthy value: never with both a result and an error,
    never with neither. *)
Theorem executor_outcome_shape ep pluginCode context w r w' :
  execute engine ep pluginCode context w = Settled r w' ->
  (error r = JNull) \/ (result r = JNull /\ truthy (error r) = true).
Proof. apply execute_settled. Qed.

(** X13.  A hook that returns a promise settled within 500 ms: when it
    is fulfilled, the executor comes back at that moment with the value
    as the result; when it is rejected with a value that has a
    [message], with that message as the error (the default message when
    it is falsy). *)
Theorem settled_promise_wins_race
    ep pluginCode context w body d fulfilled v w1 :
  engine pluginCode = Compiles body ->
  pluginFunction body ep context w =
    Settled (JPromise (Some d) fulfilled v) w1 ->
  (d <= PLUGIN_TIMEOUT_MS)%N ->
  (fulfilled = true ->
   execute engine ep pluginCode context w =
   Settled {| result := v; error := JNull |}
     {| heap := heap w1; clock := (clock w1 + d)%N; calls := calls w1 |}) /\
  (fulfilled = false ->
   forall m, get_field v "message" = Some m ->
   execute engine ep pluginCode context w =
   Settled {| result := JNull;
              error := if truthy m then m else JStr "Plugin execution failed" |}
     {| heap := heap w1; clock := (clock w1 + d)%N; calls := calls w1 |}).
Proof.
  intros E Hf Hd. apply N.leb_le in Hd.
  split; intros ->; [| intros m Hm];
    rewrite (execute_compiled _ _ _ _ _ _ E), Hf; cbn [race]; rewrite Hd.
  - reflexivity.
  - unfold on_error. now rewrite Hm.
Qed.

(** X14.  A value thrown by plugin code whose [message] can be read is
    turned into a failure: the error is that message when it is truthy,
    and [Plugin execution failed] otherwise (a thrown string or number,
    which has no [message], an error with an empty message). *)
Theorem thrown_value_becomes_failure ep pluginCode context w body e w1 m :
  engine pluginCode = Compiles body ->
  pluginFunction body ep context w = Rejected e w1 ->
  get_field e "message" = Some m ->
  execute engine ep pluginCode context w =
  Settled {| result := JNull;
             error := if truthy m then m
                      else JStr "Plugin execution failed" |} w1.
Proof.
  intros E Hf Hm. rewrite (execute_compiled _ _ _ _ _ _ E), Hf.
  unfold on_error. now rewrite Hm.
Qed.

End ExecutorOutcomes.

Section OutcomeRuns.
Import JsString Js Executor Samples.

Lemma executor_outcome_shape_witness :
  JStr "boom" = JNull \/ (JNull = JNull /\ truthy (JStr "boom") = true).
Proof.
  apply (executor_outcome_shape MoreSamples.engine Render
           MoreSamples.boom_source context world
           {| result := JNull; error := JStr "boom" |}
           (called Render context world)).
  vm_compute. reflexivity.
Defined.

Lemma settled_promise_wins_race_witness :
  execute MoreSamples.engine Calculate MoreSamples.nap_source context world =
  Settled {| result := JObj [("data", JObj [("slept", JNum 100)])];
             error := JNull |}
    {| heap := heap world; clock := 100; calls := [(Calculate, context)] |}.
Proof.
  destruct (settled_promise_wins_race MoreSamples.engine Calculate
              MoreSamples.nap_source context world
              (fun _ h => BodyEnds
                 {| calculate := Callable MoreSamples.nap_calculate;
                    render := NotAFunction |} h 0)
              100%N true (JObj [("data", JObj [("slept", JNum 100)])])
              (called Calculate context world)) as [H _].
  - vm_compute. reflexivity.
  - vm_compute. reflexivity.
  - vm_compute. discriminate.
  - apply H. reflexivity.
Defined.

Lemma thrown_value_becomes_failure_witness :
  execute MoreSamples.engine Calculate MoreSamples.oops_source context world =
  Settled {| result := JNull; error := JStr "Plugin execution failed" |}
    (called Calculate context world).
Proof.
  apply (thrown_value_becomes_failure MoreSamples.engine Calculate
           MoreSamples.oops_source context world
           (fun _ h => BodyEnds
              {| calculate := Callable MoreSamples.oops_calculate;
                 render := NotAFunction |} h 0)
           (JStr "oops") (called Calculate context world) JUndefined).
  - vm_compute. reflexivity.
  - vm_compute. reflexivity.
  - reflexivity.
Defined.

End OutcomeRuns.

(** ** The three maps of a batch *)
Section BatchMaps.
Import JsString Js Executor Orchestrator.
Variable engine : Engine.
Variable pluginDefinitions : gmap string Plugin.
Variable baseContext : BaseContext.

Local Abbreviation iteration := (iteration engine pluginDefinitions baseContext).
Local Abbreviation loop := (loop engine pluginDefinitions baseContext).
Local Abbreviation processPlugins := (processPlugins engine pluginDefinitions baseContext).
Local Abbreviation context_of := (context_of baseContext).

(** What [collect] does: nothing, or one [set] with a truthy value. *)
Lemma collect_cases ok k r out :
  (truthy (error r) = true /\
   collect ok k r out = set_error k (error r) out) \/
  (truthy (error r) = false /\ truthy (result r) = true /\
   collect ok k r out = ok k (result r) out) \/
  (truthy (error r) = false /\ truthy (result r) = false /\
   collect ok k r out = out).
Proof.
  unfold collect. destruct (truthy (error r)), (truthy (result r)); auto.
Qed.

(** The ways one turn of the loop comes back. *)
Lemma iteration_cases c out w out' w' :
  iteration c out w = Settled out' w' ->
  (enabled c = false /\ out' = out /\ w' = w) \/
  (enabled c = true /\ pluginDefinitions !! id c = None /\
   out' = set_error (id c) (JStr "Plugin definition not found") out /\
   w' = w) \/
  (enabled c = true /\
   exists pluginDef calcResult w1 renderResult,
     pluginDefinitions !! id c = Some pluginDef /\
     executePluginCalculation engine (code pluginDef) (context_of c) w =
       Settled calcResult w1 /\
     executePluginRender engine (code pluginDef) (context_of c) w1 =
       Settled renderResult w' /\
     out' = collect set_render (id c) renderResult
              (collect set_calculation (id c) calcResult out)).
Proof.
  unfold Orchestrator.iteration. destruct (enabled c); cbn [negb].
  2:{ intros [= <- <-]. now left. }
  destruct (pluginDefinitions !! id c) as [def|] eqn:Hd.
  2:{ intros [= <- <-]. right. left. auto. }
  unfold bind, ret.
  destruct (executePluginCalculation _ _ _ _) as [rc w1| |] eqn:Hc;
    try discriminate.
  destruct (executePluginRender _ _ _ _) as [rr w2| |] eqn:Hr;
    try discriminate.
  intros [= <- <-]. right. right. split; [reflexivity |].
  now exists def, rc, w1, rr.
Qed.

(** A property of the three maps kept by [set] with a truthy value at
    the plugin's id is kept by a turn of the loop. *)
Lemma iteration_keeps (P : string -> Output -> Output -> Prop) c out w out' w' :
  (forall o, P (id c) o o) ->
  (forall o1 o2 o3, P (id c) o1 o2 -> P (id c) o2 o3 -> P (id c) o1 o3) ->
  (forall v o, truthy v = true -> P (id c) o (set_error (id c) v o)) ->
  (forall v o, truthy v = true -> P (id c) o (set_calculation (id c) v o)) ->
  (forall v o, truthy v = true -> P (id c) o (set_render (id c) v o)) ->
  iteration c out w = Settled out' w' ->
  enabled c = false /\ out' = out \/ enabled c = true /\ P (id c) out out'.
Proof.
  intros Hrefl Htrans He Hc Hr H.
  destruct (iteration_cases _ _ _ _ _ H)
    as [(D & -> & _) | [(E & _ & -> & _) | (E & def & rc & w1 & rr & _ & _ & _ & ->)]].
  - now left.
  - right. split; [exact E |]. now apply He.
  - right. split; [exact E |].
    apply Htrans with (collect set_calculation (id c) rc out).
    + destruct (collect_cases set_calculation (id c) rc out)
        as [(T & ->) | [(_ & T & ->) | (_ & _ & ->)]]; auto.
    + destruct (collect_cases set_render (id c) rr
                  (collect set_calculation (id c) rc out))
        as [(T & ->) | [(_ & T & ->) | (_ & _ & ->)]]; auto.
Qed.

(** The entries of the other plugins are not touched. *)
Local Abbreviation frame := (fun (k' : string) (o o' : Output) =>
  forall k, k <> k' ->
    map_get k (errors o') = map_get k (errors o) /\
    map_get k (calculationResults o') = map_get k (calculationResults o) /\
    map_get k (renderResults o') = map_get k (renderResults o)).

Lemma iteration_frame c out w out' w' :
  iteration c out w = Settled out' w' ->
  enabled c = false /\ out' = out \/ enabled c = true /\ frame (id c) out out'.
Proof.
  apply (iteration_keeps frame).
  - intros o k _. auto.
  - intros o1 o2 o3 H12 H23 k Hk.
    destruct (H23 k Hk) as (-> & -> & ->). now apply H12.
  - intros v o _ k Hk. cbn. rewrite map_get_set_ne by congruence. auto.
  - intros v o _ k Hk. cbn. rewrite map_get_set_ne by congruence. auto.
  - intros v o _ k Hk. cbn. rewrite map_get_set_ne by congruence. auto.
Qed.

Lemma loop_filter_enabled plugins out w :
  loop plugins out w = loop (List.filter enabled plugins) out w.
Proof.
  revert out w. induction plugins as [|c plugins IH]; intros out w.
  - reflexivity.
  - cbn [List.filter]. destruct (enabled c) eqn:E.
    + rewrite !loop_cons. destruct (iteration c out w); auto.
    + rewrite loop_cons. unfold Orchestrator.iteration. rewrite E. cbn.
      apply IH.
Qed.

(** X16.  Disabled entries are skipped altogether: a batch gives what
    the batch of its enabled entries gives, the same three maps, the same
    heap, clock and calls. *)
Theorem disabled_plugins_are_skipped plugins w :
  processPlugins plugins w = processPlugins (List.filter enabled plugins) w.
Proof. apply loop_filter_enabled. Qed.

Lemma loop_origin k plugins out w final w' :
  loop plugins out w = Settled final w' ->
  is_Some (map_get k (errors final)) \/
  is_Some (map_get k (calculationResults final)) \/
  is_Some (map_get k (renderResults final)) ->
  (is_Some (map_get k (errors out)) \/
   is_Some (map_get k (calculationResults out)) \/
   is_Some (map_get k (renderResults out))) \/
  exists c, In c plugins /\ enabled c = true /\ id c = k.
Proof.
  revert out w. induction plugins as [|c plugins IH]; intros out w.
  - intros [= <- _]. now left.
  - rewrite loop_cons. destruct (iteration c out w) as [out1 w1| |] eqn:E;
      try discriminate.
    intros H Hs. destruct (IH _ _ H Hs) as [H1 | (c' & Hin & He & Hk)].
    2:{ right. exists c'. split; [now right | auto]. }
    destruct (iteration_frame _ _ _ _ _ E) as [(_ & ->) | (He & Hf)];
      [now left |].
    destruct (String.eqb_spec (id c) k) as [Hk | Hk].
    + right. exists c. split; [now left | auto].
    + left. destruct (Hf k) as (E1 & E2 & E3); [congruence |].
      now rewrite E1, E2, E3 in H1.
Qed.

(** X17.  Every id with an entry in one of the three returned maps is
    the id of an enabled entry of the batch. *)
Theorem reported_ids_come_from_batch plugins w final w' k :
  processPlugins plugins w = Settled final w' ->
  is_Some (map_get k (errors final)) \/
  is_Some (map_get k (calculationResults final)) \/
  is_Some (map_get k (renderResults final)) ->
  exists c, In c plugins /\ enabled c = true /\ id c = k.
Proof.
  intros H Hs. destruct (loop_origin k _ _ _ _ _ H Hs) as [H0 | Hc];
    [| exact Hc].
  cbn in H0. destruct H0 as [[x Hx] | [[x Hx] | [x Hx]]]; discriminate.
Qed.

Lemma iteration_unknown k c out w out' w' :
  pluginDefinitions !! k = None ->
  iteration c out w = Settled out' w' ->
  map_get k (calculationResults out') = map_get k (calculationResults out) /\
  map_get k (renderResults out') = map_get k (renderResults out) /\
  map_get k (errors out') =
    if enabled c && String.eqb (id c) k
    then Some (JStr "Plugin definition not found")
    else map_get k (errors out).
Proof.
  intros Hk H.
  destruct (iteration_cases _ _ _ _ _ H)
    as [(D & -> & _) | [(E & Hd & -> & _) | (E & def & rc & w1 & rr & Hd & _ & _ & _)]].
  - rewrite D. auto.
  - rewrite E. cbn. destruct (String.eqb_spec (id c) k) as [<- | Hne].
    + now rewrite map_get_set_eq.
    + now rewrite map_get_set_ne.
  - assert (id c <> k) as Hne by congruence.
    destruct (iteration_frame _ _ _ _ _ H) as [(D & _) | (_ & Hf)];
      [congruence |].
    destruct (Hf k) as (-> & -> & ->); [congruence |].
    apply String.eqb_neq in Hne. rewrite Hne, andb_false_r. auto.
Qed.

Lemma loop_unknown k plugins out w final w' :
  pluginDefinitions !! k = None ->
  loop plugins out w = Settled final w' ->
  map_get k (calculationResults final) = map_get k (calculationResults out) /\
  map_get k (renderResults final) = map_get k (renderResults out) /\
  ((map_get k (errors out) = Some (JStr "Plugin definition not found") \/
    exists c, In c plugins /\ enabled c = true /\ id c = k) ->
   map_get k (errors final) = Some (JStr "Plugin definition not found")).
Proof.
  intros Hk. revert out w. induction plugins as [|c plugins IH]; intros out w.
  - intros [= <- _]. repeat split. intros [H | (c & [] & _)]. exact H.
  - rewrite loop_cons. destruct (iteration c out w) as [out1 w1| |] eqn:E;
      try discriminate.
    intros H. destruct (IH _ _ H) as (Hc & Hr & He).
    destruct (iteration_unknown k _ _ _ _ _ Hk E) as (Hc1 & Hr1 & He1).
    split; [congruence |]. split; [congruence |].
    intros Hpre. apply He.
    destruct (enabled c && String.eqb (id c) k) eqn:B.
    + now left.
    + rewrite He1. destruct Hpre as [H0 | (c' & [<- | Hin] & En & Hid)].
      * now left.
      * rewrite En in B. apply String.eqb_eq in Hid. now rewrite Hid in B.
      * right. now exists c'.
Qed.

(** X18.  An enabled entry whose id has no definition gets the error
    [Plugin definition not found] in the returned map and no result in
    either result map; the rest of the batch is processed. *)
Theorem unknown_plugin_is_reported plugins c w final w' :
  In c plugins ->
  enabled c = true ->
  pluginDefinitions !! id c = None ->
  processPlugins plugins w = Settled final w' ->
  map_get (id c) (errors final) = Some (JStr "Plugin definition not found") /\
  map_get (id c) (calculationResults final) = None /\
  map_get (id c) (renderResults final) = None.
Proof.
  intros Hin He Hd H.
  destruct (loop_unknown _ _ _ _ _ _ Hd H) as (Hc & Hr & Herr).
  repeat split; [| exact Hc | exact Hr].
  apply Herr. right. now exists c.
Qed.

Lemma map_set_Forall {V} (P : string * V -> Prop) k v (m : JsMap V) :
  P (k, v) -> Forall P m -> Forall P (map_set k v m).
Proof.
  intros Hv H. induction H as [|[k1 v1] m H1 Hm IH]; cbn [map_set].
  - now repeat constructor.
  - destruct (String.eqb k1 k); constructor; assumption.
Qed.

Lemma map_get_In {V} k (v : V) (m : JsMap V) :
  map_get k m = Some v -> In (k, v) m.
Proof.
  induction m as [|[k1 v1] m IH]; cbn [map_get]; [discriminate |].
  destruct (String.eqb_spec k1 k) as [-> | _].
  - intros [= ->]. now left.
  - intros H. right. now apply IH.
Qed.

Local Abbreviation all_truthy := (fun (o : Output) =>
  Forall (fun entry => truthy (snd entry) = true) (errors o) /\
  Forall (fun entry => truthy (snd entry) = true) (calculationResults o) /\
  Forall (fun entry => truthy (snd entry) = true) (renderResults o)).

(** Only truthy values are put in the maps. *)
Lemma loop_truthy plugins out w final w' :
  loop plugins out w = Settled final w' ->
  all_truthy out -> all_truthy final.
Proof.
  revert out w. induction plugins as [|c plugins IH]; intros out w.
  - now intros [= <- _].
  - rewrite loop_cons. destruct (iteration c out w) as [out1 w1| |] eqn:E;
      try discriminate.
    intros H Hout. apply (IH _ _ H).
    destruct (iteration_keeps (fun _ o o' => all_truthy o -> all_truthy o')
                c out w out1 w1) as [(_ & ->) | (_ & Hk)]; auto.
    all: intros v o T (He & Hc & Hr); cbn; repeat split;
      try assumption; now apply map_set_Forall.
Qed.

(** X19.  Every value in the three returned maps is truthy: an error is
    never empty, and a result that is [undefined], [null], [0], [false]
    or the empty string is not recorded. *)
Theorem recorded_values_are_truthy plugins w final w' k v :
  processPlugins plugins w = Settled final w' ->
  map_get k (errors final) = Some v \/
  map_get k (calculationResults final) = Some v \/
  map_get k (renderResults final) = Some v ->
  truthy v = true.
Proof.
  intros H Hv.
  destruct (loop_truthy _ _ _ _ _ H) as (He & Hc & Hr).
  { cbn. repeat split; constructor. }
  rewrite Forall_forall in He, Hc, Hr.
  destruct Hv as [Hv | [Hv | Hv]]; apply map_get_In, list_elem_of_In in Hv.
  - apply (He _ Hv).
  - apply (Hc _ Hv).
  - apply (Hr _ Hv).
Qed.

(** X20.  A plugin whose two hooks come back without an error and with
    falsy results (hooks that return nothing) leaves no trace: the turn
    of the loop returns the three maps as they were. *)
Theorem falsy_results_leave_no_trace
    c pluginDef out w calcResult w1 renderResult w2 :
  enabled c = true ->
  pluginDefinitions !! id c = Some pluginDef ->
  executePluginCalculation engine (code pluginDef) (context_of c) w =
    Settled calcResult w1 ->
  truthy (error calcResult) = false ->
  truthy (result calcResult) = false ->
  executePluginRender engine (code pluginDef) (context_of c) w1 =
    Settled renderResult w2 ->
  truthy (error renderResult) = false ->
  truthy (result renderResult) = false ->
  iteration c out w = Settled out w2.
Proof.
  intros He Hd Hc Ec Rc Hr Er Rr.
  rewrite (iteration_enabled _ _ _ _ _ _ _ He Hd), Hc, Hr.
  unfold collect. now rewrite Ec, Rc, Er, Rr.
Qed.

Local Abbreviation grown_by k m m' :=
  (keys m' = keys m \/ (~ In k (keys m) /\ keys m' = keys m ++ [k])).

Lemma grown_by_set k v (m : JsMap JsVal) : grown_by k m (map_set k v m).
Proof.
  rewrite keys_map_set. destruct (map_get k m) eqn:E; [now left |].
  right. split; [now apply map_get_None_keys | reflexivity].
Qed.

Lemma grown_by_trans k (m1 m2 m3 : JsMap JsVal) :
  grown_by k m1 m2 -> grown_by k m2 m3 -> grown_by k m1 m3.
Proof.
  intros [E12 | (N12 & E12)] [E23 | (N23 & E23)].
  - left. congruence.
  - right. rewrite <- E12. auto.
  - right. split; [exact N12 | congruence].
  - destruct N23. rewrite E12. apply in_or_app. right. now left.
Qed.

Lemma iteration_keys c out w out' w' :
  iteration c out w = Settled out' w' ->
  enabled c = false /\ out' = out \/
  enabled c = true /\
  grown_by (id c) (errors out) (errors out') /\
  grown_by (id c) (calculationResults out) (calculationResults out') /\
  grown_by (id c) (renderResults out) (renderResults out').
Proof.
  apply (iteration_keeps (fun k o o' =>
           grown_by k (errors o) (errors o') /\
           grown_by k (calculationResults o) (calculationResults o') /\
           grown_by k (renderResults o) (renderResults o'))).
  - intros o. repeat split; now left.
  - intros o1 o2 o3 (A1 & B1 & C1) (A2 & B2 & C2).
    repeat split; eapply grown_by_trans; eassumption.
  - intros v o _. cbn. repeat split; try (now left). apply grown_by_set.
  - intros v o _. cbn. repeat split; try (now left). apply grown_by_set.
  - intros v o _. cbn. repeat split; try (now left). apply grown_by_set.
Qed.

Lemma loop_keys plugins out w final w' :
  loop plugins out w = Settled final w' ->
  exists le lc lr,
    keys (errors final) = keys (errors out) ++ le /\
    keys (calculationResults final) = keys (calculationResults out) ++ lc /\
    keys (renderResults final) = keys (renderResults out) ++ lr /\
    sublist le (map id (List.filter enabled plugins)) /\
    sublist lc (map id (List.filter enabled plugins)) /\
    sublist lr (map id (List.filter enabled plugins)).
Proof.
  revert out w. induction plugins as [|c plugins IH]; intros out w.
  - intros [= <- _]. exists [], [], []. rewrite !app_nil_r.
    repeat split; constructor.
  - rewrite loop_cons. destruct (iteration c out w) as [out1 w1| |] eqn:E;
      try discriminate.
    intros H.
    destruct (IH _ _ H) as (le & lc & lr & Ee & Ec & Er & Se & Sc & Sr).
    cbn [List.filter].
    destruct (iteration_keys _ _ _ _ _ E) as [(D & ->) | (En & Ge & Gc & Gr)].
    + rewrite D. now exists le, lc, lr.
    + rewrite En. cbn [map].
      assert (forall (m m1 mf : JsMap JsVal) l,
                grown_by (id c) m m1 -> keys mf = keys m1 ++ l ->
                sublist l (map id (List.filter enabled plugins)) ->
                exists l', keys mf = keys m ++ l' /\
                  sublist l' (id c :: map id (List.filter enabled plugins)))
        as Hstep.
      { intros m m1 mf l [G | (_ & G)] Ef Sl; rewrite G in Ef.
        - exists l. split; [exact Ef | now apply sublist_cons].
        - exists (id c :: l). rewrite <- app_assoc in Ef.
          split; [exact Ef | now apply sublist_skip]. }
      destruct (Hstep _ _ _ _ Ge Ee Se) as (le' & ? & ?).
      destruct (Hstep _ _ _ _ Gc Ec Sc) as (lc' & ? & ?).
      destruct (Hstep _ _ _ _ Gr Er Sr) as (lr' & ? & ?).
      now exists le', lc', lr'.
Qed.

(** X21.  The three returned maps list their plugins in processing
    order: the ids of each map, in the order of iteration, are picked in
    order from the ids of the enabled entries of the batch. *)
Theorem maps_follow_processing_order plugins w final w' :
  processPlugins plugins w = Settled final w' ->
  sublist (keys (calculationResults final))
    (map id (List.filter enabled plugins)) /\
  sublist (keys (renderResults final))
    (map id (List.filter enabled plugins)) /\
  sublist (keys (errors final)) (map id (List.filter enabled plugins)).
Proof.
  intros H.
  destruct (loop_keys _ _ _ _ _ H) as (le & lc & lr & Ee & Ec & Er & Se & Sc & Sr).
  cbn in Ee, Ec, Er. rewrite Ee, Ec, Er. auto.
Qed.

(** X23.  A failure of a hook never ends the batch: when every
    executor run for the enabled plugins with a definition comes back,
    with a success or a failure, the batch returns its three maps. *)
Theorem batch_returns_when_executors_do plugins :
  (forall c pluginDef,
     In c plugins -> enabled c = true ->
     pluginDefinitions !! id c = Some pluginDef ->
     forall ep w, exists r w',
       execute engine ep (code pluginDef) (context_of c) w = Settled r w') ->
  forall w, exists final w', processPlugins plugins w = Settled final w'.
Proof.
  intros H w. now apply loop_settles.
Qed.

End BatchMaps.

(** ** Merging the results of a batch *)
Section MergerReports.
Import Js Merger.

Lemma apply_result_some k r acc :
  r <> JNull -> r <> JUndefined ->
  apply_result k r acc =
  Some {| currentDate :=
            if truthy (default JUndefined (get_field r "currentDate"))
            then default JUndefined (get_field r "currentDate")
            else currentDate acc;
          pluginData :=
            if truthy (default JUndefined (get_field r "data"))
            then <[k := default JUndefined (get_field r "data")]> (pluginData acc)
            else pluginData acc |}.
Proof.
  intros N1 N2. unfold apply_result.
  destruct r; try congruence; cbn [get_field from_option id];
    try (cbn; now destruct acc);
    destruct (truthy (field "currentDate" fields)),
      (truthy (field "data" fields)); cbn; now destruct acc.
Qed.

Lemma apply_result_none k r acc :
  apply_result k r acc = None <-> r = JNull \/ r = JUndefined.
Proof.
  split.
  - destruct r; cbn; auto; discriminate.
  - now intros [-> | ->].
Qed.

Lemma last_cons_default {A} (x d : A) l : List.last (x :: l) d = List.last l x.
Proof.
  revert x d. induction l as [|y l IH]; intros x d; [reflexivity |].
  change (List.last (x :: y :: l) d) with (List.last (y :: l) d).
  now rewrite !IH.
Qed.

Lemma merge_entries_date entries acc :
  Forall (fun entry => snd entry <> JNull /\ snd entry <> JUndefined) entries ->
  exists acc',
    merge_entries entries acc = Some acc' /\
    currentDate acc' =
    List.last
      (List.filter truthy
         (map (fun entry =>
                 default JUndefined (get_field (snd entry) "currentDate"))
            entries))
      (currentDate acc).
Proof.
  intros H. revert acc. induction H as [|[k r] entries [N1 N2] _ IH]; intros acc.
  - now exists acc.
  - cbn [merge_entries map List.filter snd].
    rewrite (apply_result_some k r acc N1 N2).
    match goal with |- context [merge_entries entries ?a] =>
      destruct (IH a) as (acc' & -> & Hd) end.
    exists acc'. split; [reflexivity |]. rewrite Hd. cbn [currentDate].
    destruct (truthy (default JUndefined (get_field r "currentDate")));
      [now rewrite last_cons_default | reflexivity].
Qed.

(** X24.  Last writer wins, in general: when no result is [null] or
    [undefined], the merged date is the date of the last result, in the
    order of the map, whose [currentDate] is truthy, and [baseDate] when
    there is none. *)
Theorem merged_date_is_last_override baseDate calculationResults :
  Forall (fun entry => snd entry <> JNull /\ snd entry <> JUndefined)
    calculationResults ->
  exists merged,
    mergePluginResults baseDate calculationResults = Some merged /\
    currentDate merged =
    List.last
      (List.filter truthy
         (map (fun entry =>
                 default JUndefined (get_field (snd entry) "currentDate"))
            calculationResults))
      baseDate.
Proof.
  intros H.
  apply (merge_entries_date _ {| currentDate := baseDate; pluginData := ∅ |} H).
Qed.

Lemma merge_entries_data entries acc :
  Forall (fun entry => snd entry <> JNull /\ snd entry <> JUndefined) entries ->
  List.NoDup (keys entries) ->
  exists acc',
    merge_entries entries acc = Some acc' /\
    forall k,
      pluginData acc' !! k =
      match map_get k entries with
      | Some r =>
          if truthy (default JUndefined (get_field r "data"))
          then Some (default JUndefined (get_field r "data"))
          else pluginData acc !! k
      | None => pluginData acc !! k
      end.
Proof.
  intros H. revert acc.
  induction H as [|[k r] entries [N1 N2] _ IH]; intros acc Hn.
  - now exists acc.
  - cbn [keys map fst] in Hn. apply NoDup_cons_iff in Hn as [Hk Hn].
    cbn [merge_entries map_get].
    rewrite (apply_result_some k r acc N1 N2).
    match goal with |- context [merge_entries entries ?a] =>
      destruct (IH a Hn) as (acc' & -> & Hd) end.
    exists acc'. split; [reflexivity |]. intros k'. rewrite Hd.
    cbn [pluginData].
    destruct (String.eqb_spec k k') as [<- | Hne].
    + assert (map_get k entries = None) as ->.
      { destruct (map_get k entries) as [x|] eqn:E; [| reflexivity].
        destruct Hk. apply map_get_In in E.
        now apply (in_map fst entries (k, x)). }
      destruct (truthy (default JUndefined (get_field r "data")));
        [apply lookup_insert_eq | reflexivity].
    + destruct (truthy (default JUndefined (get_field r "data")));
        [| reflexivity].
      rewrite lookup_insert_ne by exact Hne. reflexivity.
Qed.

(** X25.  When no plugin id is [__proto__] (a key that a plain object
    does not store as a property), the merged data has, under a plugin's
    id, the [data] of that plugin's result when it is truthy, and nothing
    otherwise: no entry for a result without data or with falsy data,
    none for an id that is not in the map. *)
Theorem merged_data_by_plugin baseDate calculationResults :
  Forall (fun entry => snd entry <> JNull /\ snd entry <> JUndefined)
    calculationResults ->
  List.NoDup (keys calculationResults) ->
  ~ In "__proto__" (keys calculationResults) ->
  exists merged,
    mergePluginResults baseDate calculationResults = Some merged /\
    forall k,
      pluginData merged !! k =
      match map_get k calculationResults with
      | Some r =>
          if truthy (default JUndefined (get_field r "data"))
          then Some (default JUndefined (get_field r "data"))
          else None
      | None => None
      end.
Proof.
  intros H Hn _.
  destruct (merge_entries_data _ {| currentDate := baseDate; pluginData := ∅ |}
              H Hn) as (merged & E & Hd).
  exists merged. split; [exact E |]. intros k. rewrite Hd. cbn [pluginData].
  rewrite lookup_empty. reflexivity.
Qed.

(** X26.  [mergePluginResults] throws when a result of the map is
    [null] or [undefined]: reading its [currentDate] is a TypeError. *)
Theorem merge_throws_on_nullish_result baseDate calculationResults :
  Exists (fun entry => snd entry = JNull \/ snd entry = JUndefined)
    calculationResults ->
  mergePluginResults baseDate calculationResults = None.
Proof.
  unfold mergePluginResults.
  generalize {| currentDate := baseDate; pluginData := ∅ |} as acc.
  induction calculationResults as [|[k r] entries IH]; intros acc H.
  - inversion H.
  - cbn [merge_entries]. apply Exists_cons in H as [H | H]; cbn [snd] in H.
    + apply apply_result_none with (k := k) (acc := acc) in H. now rewrite H.
    + destruct (apply_result k r acc); [now apply IH | reflexivity].
Qed.

Lemma merge_throws_on_nullish_result_witness :
  mergePluginResults (JDate 0%nat)
    [("timezone", JObj [("currentDate", JDate 1%nat)]); ("quotes", JNull)] =
  None.
Proof.
  apply merge_throws_on_nullish_result.
  apply Exists_cons. right. apply Exists_cons. left. now left.
Defined.

End MergerReports.

(** ** Batches of sample plugins *)
Section MoreBatchRuns.
Import JsString Js Executor Orchestrator Samples.

Local Abbreviation run := (processPlugins engine pluginDefinitions baseContext).

Local Abbreviation helper_output :=
  {| calculationResults := [];
     renderResults := [];
     errors := [("helper", JStr "Plugin must export a render() function")] |}.

Local Abbreviation ghost_output :=
  {| calculationResults :=
       [("reader", JObj [("data", JObj [("seen", JNum 1000)])])];
     renderResults := [];
     errors := [("ghost", JStr "Plugin definition not found");
                ("reader", JStr "Plugin must export a render() function")] |}.

Lemma reported_ids_come_from_batch_witness :
  exists c, In c [config "helper"] /\ enabled c = true /\ id c = "helper".
Proof.
  apply (reported_ids_come_from_batch engine pluginDefinitions baseContext
           [config "helper"] world helper_output world "helper").
  - vm_compute. reflexivity.
  - left. cbn. eauto.
Defined.

Lemma unknown_plugin_is_reported_witness :
  map_get "ghost" (errors ghost_output) =
    Some (JStr "Plugin definition not found") /\
  map_get "ghost" (calculationResults ghost_output) = None /\
  map_get "ghost" (renderResults ghost_output) = None.
Proof.
  apply (unknown_plugin_is_reported engine pluginDefinitions baseContext
           [config "ghost"; config "reader"] (config "ghost") world
           ghost_output
           {| heap := heap world; clock := 0;
              calls := [(Calculate, context)] |}).
  - now left.
  - reflexivity.
  - vm_compute. reflexivity.
  - vm_compute. reflexivity.
Defined.

Lemma recorded_values_are_truthy_witness :
  truthy (JObj [("data", JObj [("seen", JNum 1000)])]) = true.
Proof.
  apply (recorded_values_are_truthy engine pluginDefinitions baseContext
           [config "ghost"; config "reader"] world ghost_output
           {| heap := heap world; clock := 0;
              calls := [(Calculate, context)] |} "reader").
  - vm_compute. reflexivity.
  - right. left. reflexivity.
Defined.

Lemma falsy_results_leave_no_trace_witness :
  iteration MoreSamples.engine MoreSamples.pluginDefinitions baseContext
    (config "silent") ghost_output world =
  Settled ghost_output
    {| heap := heap world; clock := 0;
       calls := [(Calculate, context); (Render, context)] |}.
Proof.
  apply (falsy_results_leave_no_trace MoreSamples.engine
           MoreSamples.pluginDefinitions baseContext (config "silent")
           {| code := MoreSamples.silent_source |} ghost_output world
           {| result := JUndefined; error := JNull |}
           (called Calculate context world)
           {| result := JUndefined; error := JNull |}).
  - reflexivity.
  - vm_compute. reflexivity.
  - vm_compute. reflexivity.
  - reflexivity.
  - reflexivity.
  - vm_compute. reflexivity.
  - reflexivity.
  - reflexivity.
Defined.

Lemma maps_follow_processing_order_witness :
  sublist ["reader"] ["ghost"; "reader"] /\
  sublist [] ["ghost"; "reader"] /\
  sublist ["ghost"; "reader"] ["ghost"; "reader"].
Proof.
  apply (maps_follow_processing_order engine pluginDefinitions baseContext
           [config "ghost";
            {| id := "setter"; enabled := false; settings := JNull |};
            config "reader"]
           world ghost_output
           {| heap := heap world; clock := 0;
              calls := [(Calculate, context)] |}).
  vm_compute. reflexivity.
Defined.

Lemma batch_returns_when_executors_do_witness :
  exists final w', run [config "helper"] world = Settled final w'.
Proof.
  apply (batch_returns_when_executors_do engine pluginDefinitions baseContext
           [config "helper"]).
  intros c pluginDef [<- | []] _ Hd ep w.
  assert (Some pluginDef = Some {| code := helper_source |}) as E.
  { rewrite <- Hd. vm_compute. reflexivity. }
  injection E as ->.
  eexists _, _.
  apply (execute_missing_entry engine ep helper_source _ w
           (fun _ h => BodyEnds
              {| calculate := NotAFunction; render := NotAFunction |} h 0)
           {| calculate := NotAFunction; render := NotAFunction |}
           (heap w) 0%N).
  - vm_compute. reflexivity.
  - reflexivity.
  - now destruct ep.
Defined.

End MoreBatchRuns.

Section MergeRuns.
Import Js Merger.

Lemma merged_date_is_last_override_witness :
  exists merged,
    mergePluginResults (JDate 0%nat)
      [ ("timezone", JObj [("currentDate", JDate 1%nat)]);
        ("travel", JObj [("currentDate", JDate 2%nat)]);
        ("quotes", JNum 42) ] = Some merged /\
    currentDate merged = JDate 2%nat.
Proof.
  apply (merged_date_is_last_override (JDate 0%nat)
           [ ("timezone", JObj [("currentDate", JDate 1%nat)]);
             ("travel", JObj [("currentDate", JDate 2%nat)]);
             ("quotes", JNum 42) ]).
  repeat constructor; discriminate.
Defined.

Lemma merged_data_by_plugin_witness :
  exists merged,
    mergePluginResults (JDate 0%nat)
      [ ("timezone", JObj [("data", JNum 0)]);
        ("quotes", JObj [("data", JObj [("quote", JNum 7)])]) ] =
    Some merged /\
    forall k,
      pluginData merged !! k =
      match map_get k [ ("timezone", JObj [("data", JNum 0)]);
                        ("quotes", JObj [("data", JObj [("quote", JNum 7)])]) ]
      with
      | Some r =>
          if truthy (default JUndefined (get_field r "data"))
          then Some (default JUndefined (get_field r "data"))
          else None
      | None => None
      end.
Proof.
  apply (merged_data_by_plugin (JDate 0%nat)
           [ ("timezone", JObj [("data", JNum 0)]);
             ("quotes", JObj [("data", JObj [("quote", JNum 7)])]) ]).
  - repeat constructor; discriminate.
  - cbn. repeat constructor; cbn; intuition discriminate.
  - cbn. intuition discriminate.
Defined.

End MergeRuns.

(** ** Turns of the loop *)
Section BatchTurns.
Import JsString Js Executor Orchestrator.
Variable engine : Engine.
Variable pluginDefinitions : gmap string Plugin.
Variable baseContext : BaseContext.

Local Abbreviation iteration := (iteration engine pluginDefinitions baseContext).
Local Abbreviation context_of := (context_of baseContext).

(** X28.  A plugin whose source does not compile is reported with the
    message of the syntax error and nothing else: no result, no entry
    point called, no time spent, heap unchanged. *)
Theorem syntax_error_is_reported c pluginDef message out w :
  enabled c = true ->
  pluginDefinitions !! id c = Some pluginDef ->
  engine (code pluginDef) = SyntaxError message ->
  message <> "" ->
  iteration c out w = Settled (set_error (id c) (JStr message) out) w.
Proof.
  intros He Hd E Hm.
  rewrite (iteration_enabled _ _ _ _ _ _ _ He Hd).
  unfold executePluginCalculation, executePluginRender.
  rewrite !(execute_syntax_error _ _ _ _ _ _ E).
  assert (truthy (JStr message) = true) as T.
  { cbn. apply String.eqb_neq in Hm. now rewrite Hm. }
  rewrite T. unfold collect. cbn [error result]. rewrite T.
  unfold set_error. cbn. now rewrite map_set_set.
Qed.

(** X29.  A plugin whose two hooks succeed with truthy results is
    recorded in both result maps, and its turn leaves [errors] as it
    was. *)
Theorem results_of_both_hooks_recorded
    c pluginDef out w calcResult w1 renderResult w2 :
  enabled c = true ->
  pluginDefinitions !! id c = Some pluginDef ->
  executePluginCalculation engine (code pluginDef) (context_of c) w =
    Settled calcResult w1 ->
  error calcResult = JNull ->
  truthy (result calcResult) = true ->
  executePluginRender engine (code pluginDef) (context_of c) w1 =
    Settled renderResult w2 ->
  error renderResult = JNull ->
  truthy (result renderResult) = true ->
  exists out',
    iteration c out w = Settled out' w2 /\
    map_get (id c) (calculationResults out') = Some (result calcResult) /\
    map_get (id c) (renderResults out') = Some (result renderResult) /\
    errors out' = errors out.
Proof.
  intros He Hd Hc Ec Tc Hr Er Tr.
  eexists. rewrite (iteration_enabled _ _ _ _ _ _ _ He Hd), Hc, Hr.
  split; [reflexivity |].
  rewrite !collect_success by assumption. cbn.
  now rewrite !map_get_set_eq.
Qed.

End BatchTurns.

Section TurnRuns.
Import JsString Js Executor Orchestrator Samples.

Lemma syntax_error_is_reported_witness :
  iteration MoreSamples.engine MoreSamples.pluginDefinitions baseContext
    (config "broken") no_output world =
  Settled (set_error "broken" (JStr "Unexpected token ')'") no_output)
    world.
Proof.
  apply (syntax_error_is_reported MoreSamples.engine
           MoreSamples.pluginDefinitions baseContext (config "broken")
           {| code := MoreSamples.broken_source |}).
  - reflexivity.
  - vm_compute. reflexivity.
  - vm_compute. reflexivity.
  - discriminate.
Defined.

Lemma results_of_both_hooks_recorded_witness :
  exists out',
    iteration engine pluginDefinitions baseContext (config "shapeless")
      no_output world =
    Settled out'
      {| heap := heap world; clock := 0;
         calls := [(Calculate, context); (Render, context)] |} /\
    map_get "shapeless" (calculationResults out') = Some (JNum 42) /\
    map_get "shapeless" (renderResults out') = Some (JStr "no elements") /\
    errors out' = [].
Proof.
  apply (results_of_both_hooks_recorded engine pluginDefinitions baseContext
           (config "shapeless") {| code := shapeless_source |} no_output world
           {| result := JNum 42; error := JNull |}
           (called Calculate context world)
           {| result := JStr "no elements"; error := JNull |}).
  - reflexivity.
  - vm_compute. reflexivity.
  - vm_compute. reflexivity.
  - reflexivity.
  - reflexivity.
  - vm_compute. reflexivity.
  - reflexivity.
  - reflexivity.
Defined.

End TurnRuns.

(** ** Sources outside the hypotheses of the corrected claims *)
Section SharedDate.
Import JsString Js Executor Orchestrator.
Variable engine : Engine.
Variable pluginDefinitions : gmap string Plugin.
Variable baseContext : BaseContext.

Local Abbreviation run := (processPlugins engine pluginDefinitions baseContext).


End SharedDate.


Section EdgeRuns.
Import JsString Js Executor Orchestrator EdgeSamples.

Local Abbreviation run :=
  (processPlugins engine pluginDefinitions Samples.baseContext).




End EdgeRuns.

